(** * A stock-ticker demo: generator, periodic mutator, row renderer, FPS gauge

    Shallow embedding of
    - [src/utils/mockData.ts]        ([generateMockData]),
    - the top-level [App] component  (the 100 ms price-update interval),
    - [src/components/StockItem.tsx] (formatters, watchlist and trade buttons),
    - [src/components/FPSCounter.tsx] ([getStatusText] and the colour helpers).

    Number model.  A JavaScript [number] is an IEEE-754 binary64 value.  The
    generator and the mutator are embedded over exact rationals [Q]: every
    arithmetic operation is the exact one, so binary64 rounding error is not
    part of this model, and neither are infinities or NaN (the prices never
    leave a few hundred units).  Where the exceptional values are the point
    (the percentage change with a zero opening price) and to replay concrete
    runs bit for bit, module [Binary64] embeds the same expressions over the
    Standard Library's executable binary64 arithmetic ([SpecFloat]).

    [Math.random()] is modelled by the sequence [random : nat -> Q] of the
    values it returns during the run, threaded through a small state monad
    whose state is the number of draws made so far. *)

From Stdlib Require Import ZArith QArith Qround Qminmax Qabs Lqa Lia.
From Stdlib Require Import List FinFun String Ascii Bool.
From Stdlib Require Import DecimalString DecimalNat DecimalN DecimalZ.
From Stdlib Require DecimalFacts.
From Stdlib Require Import SpecFloat.
Import ListNotations.

Local Open Scope Q_scope.

(** ** JavaScript built-ins used by the sources *)

Module JS.

(** [Math.round(x)]: the integer nearest to [x], ties towards +infinity. *)
Definition Math_round (x : Q) : Z := Qfloor (x + (1 # 2)).

(** [Math.floor(x)]. *)
Definition Math_floor (x : Q) : Z := Qfloor x.

(** [Math.max(a, b)] and [Math.min(a, b)] on two (non-NaN) numbers. *)
Definition Math_max (a b : Q) : Q := Qmax a b.
Definition Math_min (a b : Q) : Q := Qmin a b.

(** [String(n)] / template-literal rendering of an integer below 1e21. *)
Definition string_of_nat (n : nat) : string :=
  NilZero.string_of_uint (Nat.to_uint n).

Definition string_of_Z (z : Z) : string :=
  NilZero.string_of_int (Z.to_int z).

(** [s.toUpperCase()] on ASCII text. *)
Definition upper_ascii (c : ascii) : ascii :=
  let n := nat_of_ascii c in
  if (97 <=? n)%nat && (n <=? 122)%nat then ascii_of_nat (n - 32) else c.

Fixpoint toUpperCase (s : string) : string :=
  match s with
  | EmptyString => EmptyString
  | String c s' => String (upper_ascii c) (toUpperCase s')
  end.

(** [s.substring(0, n)]. *)
Definition substring0 (n : nat) (s : string) : string := substring 0 n s.

(** The digit string of [Number.prototype.toFixed(2)] for a non-negative
    integer [n] of hundredths: at least three digits, a point before the
    last two. *)
Fixpoint zeros (k : nat) : string :=
  match k with
  | O => EmptyString
  | S k' => String "0" (zeros k')
  end.

Definition fixed2_digits (n : Z) : string :=
  let m := NilZero.string_of_uint (N.to_uint (Z.to_N n)) in
  let k := String.length m in
  let m := if (k <=? 2)%nat then append (zeros (3 - k)) m else m in
  let k := String.length m in
  append (substring 0 (k - 2) m) (append "." (substring (k - 2) 2 m)).

End JS.

(** ** Binary64 arithmetic, for rendering and for the exceptional values *)

Module Binary64.

Definition prec : Z := 53.
Definition emax : Z := 1024.

Definition float : Type := spec_float.

Definition add : float -> float -> float := SFadd prec emax.
Definition sub : float -> float -> float := SFsub prec emax.
Definition mul : float -> float -> float := SFmul prec emax.
Definition div : float -> float -> float := SFdiv prec emax.

(** A numeric literal with an integer value. *)
Definition of_Z (z : Z) : float := binary_normalize prec emax z 0 false.

(** [Number.isFinite]. *)
Definition isFinite (x : float) : bool :=
  match x with
  | S754_zero _ | S754_finite _ _ _ => true
  | S754_infinity _ | S754_nan => false
  end.

(** [a < b] and [a >= b] (false as soon as one side is NaN). *)
Definition lt (a b : float) : bool := SFltb a b.
Definition ge (a b : float) : bool := SFleb b a.

(** [Math.max(a, b)] and [Math.min(a, b)]. *)
Definition Math_max (a b : float) : float :=
  match SFcompare a b with
  | None => S754_nan
  | Some Lt => b
  | Some Gt => a
  | Some Eq =>
      match a, b with
      | S754_zero true, S754_zero false => b
      | _, _ => a
      end
  end.

Definition Math_min (a b : float) : float :=
  match SFcompare a b with
  | None => S754_nan
  | Some Lt => a
  | Some Gt => b
  | Some Eq =>
      match a, b with
      | S754_zero false, S754_zero true => b
      | _, _ => a
      end
  end.

(** [Math.round(x)]: floor(x + 1/2) computed exactly; an [x] without
    fractional bits, an infinity or NaN is returned as it is, and a
    negative [x] that rounds to zero gives -0. *)
Definition Math_round (x : float) : float :=
  match x with
  | S754_finite s m e =>
      if (0 <=? e)%Z then x
      else
        let n := ((2 * cond_Zopp s (Z.pos m) + 2 ^ (- e)) / 2 ^ (1 - e))%Z in
        if (n =? 0)%Z then S754_zero s else of_Z n
  | _ => x
  end.

(** [n / d] for two integer-valued numbers. *)
Definition ratio (n d : Z) : float := div (of_Z n) (of_Z d).

(** The binary64 nearest to a rational whose numerator and denominator
    are below 2^53, such as a stored price [k / 100]. *)
Definition of_Q (q : Q) : float := ratio (Qnum q) (Z.pos (Qden q)).

(** The absolute value of a finite [x] with mantissa [m] and exponent [e]
    is the fraction [abs_num m e / abs_den e]. *)
Definition abs_num (m : positive) (e : Z) : Z := (Z.pos m * 2 ^ Z.max e 0)%Z.
Definition abs_den (e : Z) : Z := (2 ^ Z.max (- e) 0)%Z.

(** Is [|x|] at least 1e21? *)
Definition needs_exponent (m : positive) (e : Z) : bool :=
  (10 ^ 21 * abs_den e <=? abs_num m e)%Z.

(** [x.toFixed(2)]: the sign, then the integer [n] with [n / 100] nearest
    to the exact value of [|x|] (the larger one on a tie) written with two
    decimals.  From 1e21 upwards the host's exponent notation takes over;
    infinities and NaN are spelled out. *)
Definition toFixed2 (exponentString : float -> string) (x : float) : string :=
  match x with
  | S754_nan => "NaN"
  | S754_infinity s => if s then "-Infinity" else "Infinity"
  | S754_zero _ => JS.fixed2_digits 0
  | S754_finite s m e =>
      let sign := if s then "-"%string else EmptyString in
      let num := abs_num m e in
      let den := abs_den e in
      if needs_exponent m e then
        append sign (exponentString (S754_finite false m e))
      else
        append sign (JS.fixed2_digits ((200 * num + den) / (2 * den)))
  end.

(** The exact value of a finite number (0 for the other ones). *)
Definition value (x : float) : Q :=
  match x with
  | S754_finite s m e =>
      let v := abs_num m e # Z.to_pos (abs_den e) in
      if s then - v else v
  | _ => 0
  end.

(** StockItem.tsx, lines 33-35. *)
Definition priceChange (price openPrice : float) : float :=
  sub price openPrice.

Definition changePercent (price openPrice : float) : float :=
  mul (div (priceChange price openPrice) openPrice) (of_Z 100).

Definition isPositive (price openPrice : float) : bool :=
  ge (priceChange price openPrice) (of_Z 0).

(** The four price fields of a generated record (mockData.ts, lines 38-39
    and 49-50), for the first four draws of the loop body. *)
Definition generatePrices (r1 r2 r3 r4 : float)
  : float * float * float * float :=
  let hundred := of_Z 100 in
  let basePrice :=
    div (Math_round (mul (add (mul r1 (of_Z 500)) (of_Z 10)) hundred))
        hundred in
  let openPrice :=
    div (Math_round
           (mul (add basePrice
                     (mul (sub r2 (div (of_Z 1) (of_Z 2))) (of_Z 20)))
                hundred))
        hundred in
  (basePrice,
   openPrice,
   div (Math_round (mul (add basePrice (mul r3 (of_Z 15))) hundred)) hundred,
   div (Math_round (mul (sub basePrice (mul r4 (of_Z 15))) hundred)) hundred).

(** The three price fields written by the mutator's callback, for a draw
    [r] of [Math.random()]. *)
Definition updatePrices (r price dayHigh dayLow : float)
  : float * float * float :=
  let change := mul (sub r (div (of_Z 1) (of_Z 2))) (of_Z 5) in
  let newPrice := Math_max (of_Z 1) (add price change) in
  (div (Math_round (mul newPrice (of_Z 100))) (of_Z 100),
   Math_max dayHigh newPrice,
   Math_min dayLow newPrice).

End Binary64.

(** ** The source of pseudo-random numbers *)

(** A computation that may call [Math.random()]: it receives the number of
    draws made so far and returns its result with the new count. *)
Definition Rand (A : Type) : Type := nat -> A * nat.

Definition ret {A} (a : A) : Rand A := fun p => (a, p).

Definition bind {A B} (c : Rand A) (k : A -> Rand B) : Rand B :=
  fun p => let (a, p') := c p in k a p'.

Notation "x <- c ;; k" := (bind c (fun x => k))
  (at level 61, c at next level, right associativity).

(** [array.map(f)] where the callback draws random numbers: elements are
    visited from index 0 upwards. *)
Fixpoint mapM {A B} (f : A -> Rand B) (l : list A) : Rand (list B) :=
  match l with
  | [] => ret []
  | a :: l' => b <- f a ;; bs <- mapM f l' ;; ret (b :: bs)
  end.

(** ** The record type ([StockData] in mockData.ts) *)

Record StockData : Type := {
  id : Z;
  symbol : string;
  company : string;
  sector : string;
  exchange : string;
  price : Q;
  openPrice : Q;
  dayHigh : Q;
  dayLow : Q;
  volume : Z;
  marketCap : Z
}.

Definition sectors : list string :=
  ["Technology"; "Finance"; "Healthcare"; "Energy"; "Consumer"]%string.

Definition companies : list string :=
  ["TechCorp"; "GlobalBank"; "MediHealth"; "PowerGrid"; "RetailMax";
   "CloudNet"; "InvestPro"; "BioPharm"; "SolarWave"; "ShopEase"]%string.

Definition exchanges : list string :=
  ["NYSE"; "NASDAQ"; "LSE"; "TSE"; "HKEX"]%string.

Section Demo.

(** [LIST_ITEM_COUNT] of [src/config.ts] (the file is not part of the
    sources at hand; the README gives 1000). *)
Variable LIST_ITEM_COUNT : nat.

(** The values returned by the successive calls of [Math.random()]. *)
Variable random : nat -> Q.

Definition Math_random : Rand Q := fun p => (random p, S p).

(** *** mockData.ts *)

(** The body of the [for] loop for index [i]: six draws, in source order
    (base price, opening price, then the properties of the object literal
    from top to bottom). *)
Definition newStock (i : nat) : Rand StockData :=
  let company := nth (i mod List.length companies) companies EmptyString in
  r1 <- Math_random ;;
  let basePrice := inject_Z (JS.Math_round ((r1 * 500 + 10) * 100)) / 100 in
  r2 <- Math_random ;;
  let openPrice :=
    inject_Z (JS.Math_round ((basePrice + (r2 - (1 # 2)) * 20) * 100)) / 100 in
  r3 <- Math_random ;;
  r4 <- Math_random ;;
  r5 <- Math_random ;;
  r6 <- Math_random ;;
  ret {| id := Z.of_nat i + 1;
         symbol := append (JS.toUpperCase (JS.substring0 3 company))
                          (JS.string_of_nat i);
         company := append company " Inc.";
         sector := nth (i mod List.length sectors) sectors EmptyString;
         exchange := nth (i mod List.length exchanges) exchanges EmptyString;
         price := basePrice;
         openPrice := openPrice;
         dayHigh := inject_Z (JS.Math_round ((basePrice + r3 * 15) * 100)) / 100;
         dayLow := inject_Z (JS.Math_round ((basePrice - r4 * 15) * 100)) / 100;
         volume := JS.Math_floor (r5 * 10000000) + 100000;
         marketCap := JS.Math_floor (r6 * 1000000000) + 10000000 |}.

(** [for (let i = 0; i < LIST_ITEM_COUNT; i++) stocks.push(...)]: [n] is
    the number of iterations still to run, [i] the loop index. *)
Fixpoint generate_loop (n i : nat) (stocks : list StockData)
  : Rand (list StockData) :=
  match n with
  | O => ret stocks
  | S n' => s <- newStock i ;; generate_loop n' (S i) (stocks ++ [s])
  end.

Definition generateMockData : Rand (list StockData) :=
  generate_loop LIST_ITEM_COUNT 0 [].

(** *** App: the callback of [setInterval(..., 100)] *)

(** The arrow function given to [prevStocks.map]. *)
Definition updateStock (stock : StockData) : Rand StockData :=
  r <- Math_random ;;
  let change := (r - (1 # 2)) * 5 in
  let newPrice := JS.Math_max 1 (price stock + change) in
  ret {| id := id stock;
         symbol := symbol stock;
         company := company stock;
         sector := sector stock;
         exchange := exchange stock;
         price := inject_Z (JS.Math_round (newPrice * 100)) / 100;
         openPrice := openPrice stock;
         dayHigh := JS.Math_max (dayHigh stock) newPrice;
         dayLow := JS.Math_min (dayLow stock) newPrice;
         volume := volume stock;
         marketCap := marketCap stock |}.

(** One mutator tick: [setStocks(prev => prev.map(...))]. *)
Definition tick (prevStocks : list StockData) : Rand (list StockData) :=
  mapM updateStock prevStocks.

(** *** StockItem.tsx *)

(** Two renderings are left to the host: [toLocaleString] depends on the
    locale, and from 1e21 upwards [toFixed] and [toString] switch to the
    exponent notation of [Number::toString]. *)
Variable toLocaleString : Z -> string.
Variable exponentString : Binary64.float -> string.

(** [(n / d).toFixed(2)] for two integers: the quotient is the binary64
    one. *)
Definition quotientFixed2 (n d : Z) : string :=
  Binary64.toFixed2 exponentString (Binary64.ratio n d).

(** [n.toString()] for an integer [n]. *)
Definition Number_toString (n : Z) : string :=
  if (Z.abs n <? 10 ^ 21)%Z then JS.string_of_Z n
  else exponentString (Binary64.of_Z n).

Definition formatVolume (vol : Z) : string :=
  if (1000000 <=? vol)%Z then append (quotientFixed2 vol 1000000) "M"
  else if (1000 <=? vol)%Z then append (quotientFixed2 vol 1000) "K"
  else Number_toString vol.

Definition formatMarketCap (cap : Z) : string :=
  if (1000000000 <=? cap)%Z then
    append "$" (append (quotientFixed2 cap 1000000000) "B")
  else if (1000000 <=? cap)%Z then
    append "$" (append (quotientFixed2 cap 1000000) "M")
  else append "$" (toLocaleString cap).

(** What a click handler does besides updating the row's own state. *)
Inductive effect : Type :=
| ConsoleLog (msg : string)
| Alert (msg : string).

Definition newline : string := String (ascii_of_nat 10) EmptyString.

(** The watchlist button's [onClick]: [setWatchlisted(!watchlisted)] and a
    console message.  The row's props are read, never written. *)
Definition onWatchlistClick (props : StockData) (watchlisted : bool)
  : bool * list effect :=
  (negb watchlisted,
   [ConsoleLog (append "Watchlist toggled for " (symbol props))]).

(** The trade button's [onClick]: an [alert] and nothing else. *)
Definition onTradeClick (props : StockData) : list effect :=
  [Alert (append "Trade executed for "
            (append (symbol props)
               (append newline
                  (append "Price: $"
                    (Binary64.toFixed2 exponentString
                       (Binary64.of_Q (price props)))))))].

(** What the watchlist button shows: its [className] and its label. *)
Definition watchlistButton (watchlisted : bool) : string * string :=
  (append "btn-watchlist " (if watchlisted then "active" else ""),
   append (if watchlisted then "★" else "☆") " Watchlist")%string.

(** *** The application as a transition system *)

(** The state owned by [App] ([stocks]), the local [watchlisted] flag of
    each mounted row (rows are keyed by [stock.id]; row [i] shows the
    [i]-th record) and the number of [Math.random()] calls made so far. *)
Record AppState : Type := {
  stocks : list StockData;
  rows : list bool;
  draws : nat
}.

Inductive event : Type :=
| Tick
| ClickWatchlist (row : nat)
| ClickTrade (row : nat).

(** [l[i] = v] when [i] is a valid index, [l] otherwise. *)
Fixpoint set_nth {A} (i : nat) (v : A) (l : list A) : list A :=
  match l, i with
  | [], _ => []
  | _ :: l', O => v :: l'
  | a :: l', S i' => a :: set_nth i' v l'
  end.

(** Module initialisation ([initialStocks = generateMockData()]) followed
    by the first render: every row starts with [useState(false)]. *)
Definition initialState : AppState :=
  let (l, p) := generateMockData O in
  {| stocks := l; rows := repeat false (List.length l); draws := p |}.

Definition step (st : AppState) (e : event) : AppState * list effect :=
  match e with
  | Tick =>
      let (l, p) := tick (stocks st) (draws st) in
      ({| stocks := l; rows := rows st; draws := p |}, [])
  | ClickWatchlist i =>
      match nth_error (stocks st) i, nth_error (rows st) i with
      | Some props, Some w =>
          let (w', out) := onWatchlistClick props w in
          ({| stocks := stocks st; rows := set_nth i w' (rows st);
              draws := draws st |}, out)
      | _, _ => (st, [])
      end
  | ClickTrade i =>
      match nth_error (stocks st) i with
      | Some props => (st, onTradeClick props)
      | None => (st, [])
      end
  end.

(** The state after a sequence of events, oldest first. *)
Definition run (evs : list event) (st : AppState) : AppState :=
  fold_left (fun s e => fst (step s e)) evs st.

End Demo.

Arguments ConsoleLog msg%_string.
Arguments Alert msg%_string.

(** ** Object identity *)

(** The records are JavaScript objects: [prevStocks] is an array of
    references, and the object literal [{ ...stock, price: ... }] of the
    interval callback creates a new object each time it is evaluated.  The
    heap lists the objects created so far, oldest first, and a reference
    is the position of its object.  No source line assigns to a field of a
    record, so the heap only grows. *)
Definition ref : Type := nat.
Definition Heap : Type := list StockData.

Definition deref (h : Heap) (a : ref) : option StockData := nth_error h a.

(** Evaluating an object literal whose fields have the values [o]. *)
Definition new_object (o : StockData) (h : Heap) : ref * Heap :=
  (List.length h, h ++ [o]).

(** [prevStocks.map(stock => ({ ...stock, ... }))] on references: the
    callback reads the fields of the object behind [stock], draws its
    random number and returns the reference of the object it creates;
    [map] collects the references, from index 0 upwards.  A reference that
    points nowhere (there is none in a JavaScript heap) aborts the tick. *)
Fixpoint tickObjects (random : nat -> Q) (prevStocks : list ref) (h : Heap)
  (p : nat) : option (list ref * Heap * nat) :=
  match prevStocks with
  | [] => Some ([], h, p)
  | stock :: rest =>
      match deref h stock with
      | None => None
      | Some fields =>
          let (o, p') := updateStock random fields p in
          let (a, h') := new_object o h in
          match tickObjects random rest h' p' with
          | None => None
          | Some (rs, h'', p'') => Some (a :: rs, h'', p'')
          end
      end
  end.

(** The array and the heap after [generateMockData()]: one object literal
    per loop iteration, pushed in order. *)
Definition generateObjects (LIST_ITEM_COUNT : nat) (random : nat -> Q)
  : list ref * Heap * nat :=
  let (l, p) := generateMockData LIST_ITEM_COUNT random 0%nat in
  (seq 0 (List.length l), l, p).

(** ** FPSCounter.tsx *)

(** [fps] is the result of a [Math.round], an integer. *)
Definition getBackgroundColor (fps : Z) : string :=
  if (fps <? 20)%Z then "#ef4444"
  else if (fps <? 50)%Z then "#eab308"
  else "#22c55e".

Definition getPathColor (fps : Z) : string :=
  if (fps <? 20)%Z then "#dc2626"
  else if (fps <? 50)%Z then "#ca8a04"
  else "#16a34a".

Definition getStatusText (fps : Z) : string :=
  if (50 <=? fps)%Z then "✓ Optimal"
  else if (20 <=? fps)%Z then "⚠ Reduced"
  else "✗ Poor".

(** The three tiers named by the status text. *)
Inductive tier : Type := Poor | Reduced | Optimal.

Definition tier_text (t : tier) : string :=
  match t with
  | Poor => "✗ Poor"
  | Reduced => "⚠ Reduced"
  | Optimal => "✓ Optimal"
  end.

(** ** Predicates used in the statements *)

(** Every draw of [Math.random()] lies in [0, 1). *)
Definition unit_interval (random : nat -> Q) : Prop :=
  forall n, 0 <= random n /\ random n < 1.

(** The bounds of a freshly generated record. *)
Definition generated_ok (s : StockData) : Prop :=
  (10 <= price s /\ price s <= 510) /\
  (-(10) <= openPrice s - price s /\ openPrice s - price s <= 10) /\
  (100000 <= volume s <= 10100000)%Z /\
  (10000000 <= marketCap s <= 1010000000)%Z /\
  dayLow s <= price s /\ price s <= dayHigh s.

(** The fields the mutator copies from the old record. *)
Definition same_static_fields (old new : StockData) : Prop :=
  id new = id old /\ symbol new = symbol old /\ company new = company old /\
  sector new = sector old /\ exchange new = exchange old /\
  openPrice new = openPrice old /\ volume new = volume old /\
  marketCap new = marketCap old.

(** [y] is [x] rounded to two decimals: a whole number of hundredths at
    most half a hundredth away from [x]. *)
Definition rounded2 (x y : Q) : Prop :=
  (exists k : Z, y == inject_Z k / 100) /\
  x - (1 # 200) < y /\ y <= x + (1 # 200).

(** One record before and after a tick whose draw gave the change [delta]:
    the stored price is the floored sum rounded to two decimals, and the
    day's extremes absorb [ref (price old + delta)], where [ref] says which
    value of the new price they are compared with. *)
Definition tick_relation (ref : Q -> Q) (delta : Q) (old new : StockData)
  : Prop :=
  rounded2 (Qmax 1 (price old + delta)) (price new) /\
  dayHigh new == Qmax (dayHigh old) (ref (price old + delta)) /\
  dayLow new == Qmin (dayLow old) (ref (price old + delta)).

(** The price change drawn for the record updated at draw number [p]. *)
Definition change_at (random : nat -> Q) (p : nat) : Q :=
  (random p - (1 # 2)) * 5.

(** *** Statements that allow for binary64 rounding *)

(** The program computes in binary64, where every arithmetic operation
    returns the representable number nearest to the exact result.  The
    statements below that compare a stored number with an exact sum or
    quotient therefore leave room for that error: [rounding_slack p] is far
    above the error of the few operations applied to a number of the size
    of [p] (each one is off by at most one part in 2^53), and far below
    the hundredth in which prices are counted. *)
Definition rounding_slack (p : Q) : Q := (Qabs p + 3) / 1000000000000.

(** [y] is [x] up to [tol]. *)
Definition within (tol x y : Q) : Prop := x - tol <= y /\ y <= x + tol.

(** One record before and after a tick whose draw gave the change [delta].
    [newPrice] is the variable of that name in the callback: the old price
    plus the change, floored at 1, and not rounded to hundredths.  The
    stored price is [newPrice] rounded to two decimals, and the day's
    extremes absorb [newPrice] itself. *)
Definition tick_relation_floored (delta : Q) (old new : StockData) : Prop :=
  let tol := rounding_slack (price old) in
  exists newPrice : Q,
    1 <= newPrice /\
    within tol (Qmax 1 (price old + delta)) newPrice /\
    (exists k : Z, within tol (inject_Z k / 100) (price new)) /\
    within ((1 # 200) + tol) newPrice (price new) /\
    dayHigh new == Qmax (dayHigh old) newPrice /\
    dayLow new == Qmin (dayLow old) newPrice.

(** A price counted in whole hundredths. *)
Definition cents (x : Q) : Z := JS.Math_round (x * 100).


(** What reading "K, M and B at 1e3, 1e6 and 1e9" of one formatter [f]
    asks for: [lead] is the currency sign, [fixed n d] the two-decimal
    rendering of [n / d]. *)
Definition abbreviates_KMB (fixed : Z -> Z -> string) (lead : string)
  (f : Z -> string) : Prop :=
  forall v : Z,
    ((1000000000 <= v)%Z ->
     f v = append lead (append (fixed v 1000000000%Z) "B")) /\
    ((1000000 <= v < 1000000000)%Z ->
     f v = append lead (append (fixed v 1000000%Z) "M")) /\
    ((1000 <= v < 1000000)%Z ->
     f v = append lead (append (fixed v 1000%Z) "K")).

(** ** Concrete inputs *)

(** A host whose exponent notation is never reached by the runs below. *)
Definition no_exponent : Binary64.float -> string := fun _ => EmptyString.

(** Draws 1/4, 3/4, 1/4, ... *)
Definition draws_alternating : nat -> Q :=
  fun n => if Nat.even n then 1 # 4 else 3 # 4.

(** Draws that are all 0, the least value [Math.random()] can return. *)
Definition draws_zero : nat -> Q := fun _ => 0.

(** Draws that generate one record with price = opening price = day-high =
    day-low = 100.00 (draws 0 to 5), then move its price by +5/512 (draw 6,
    [draws_up]) or by -5/512 ([draws_down]).  All of them are binary
    fractions, values that [Math.random()] returns exactly. *)
Definition draws_flat (seventh : Q) : nat -> Q :=
  fun n =>
    match n with
    | 0%nat => 23593 # 131072
    | 1%nat => 1 # 2
    | 6%nat => seventh
    | _ => 0
    end.

Definition draws_up : nat -> Q := draws_flat (257 # 512).
Definition draws_down : nat -> Q := draws_flat (255 # 512).

(** A record whose price has drifted down to 2.00. *)
Definition stock_near_floor : StockData :=
  {| id := 1; symbol := "TEC0"; company := "TechCorp Inc.";
     sector := "Technology"; exchange := "NYSE";
     price := 2; openPrice := 12; dayHigh := 15; dayLow := 3 # 2;
     volume := 5814285; marketCap := 724285714 |}.

(** ** The frame sampler of FPSCounter.tsx *)

(** The state [fps] and the refs [frameCountRef] and [lastTimeRef]. *)
Record FpsState : Type := {
  fps : Z;
  frameCount : Z;
  lastTime : Q
}.

(** The component as mounted at time [now]: [useState(60)], [useRef(0)],
    [useRef(performance.now())]. *)
Definition fpsMounted (now : Q) : FpsState :=
  {| fps := 60; frameCount := 0; lastTime := now |}.

(** One animation-frame callback, [performance.now()] returning
    [currentTime]. *)
Definition measureFPS (st : FpsState) (currentTime : Q) : FpsState :=
  let count := (frameCount st + 1)%Z in
  let elapsed := currentTime - lastTime st in
  if Qle_bool 1000 elapsed then
    {| fps := JS.Math_round (inject_Z count * 1000 / elapsed);
       frameCount := 0;
       lastTime := currentTime |}
  else
    {| fps := fps st; frameCount := count; lastTime := lastTime st |}.

(** The callbacks of successive frames, oldest first. *)
Definition sampleFrames (st : FpsState) (times : list Q) : FpsState :=
  fold_left measureFPS times st.


(** ** The price-change line of StockItem.tsx (line 65) *)

(** [{isPositive ? '▲' : '▼'} ${Math.abs(priceChange).toFixed(2)}
    ({changePercent.toFixed(2)}%)]. *)
Definition priceChangeText (exponentString : Binary64.float -> string)
  (price openPrice : Binary64.float) : string :=
  append (if Binary64.isPositive price openPrice then "▲" else "▼")
    (append " $"
       (append (Binary64.toFixed2 exponentString
                  (SFabs (Binary64.priceChange price openPrice)))
          (append " ("
             (append (Binary64.toFixed2 exponentString
                        (Binary64.changePercent price openPrice))
                "%)")))).

(** ** Further predicates *)

(** A whole number of hundredths. *)
Definition hundredth (x : Q) : Prop := exists k : Z, x == inject_Z k / 100.

(** The number of mutator ticks in a sequence of events, and the number of
    clicks on the watchlist button of row [i]. *)
Definition ticks (evs : list event) : nat :=
  List.length (filter (fun e => match e with Tick => true | _ => false end) evs).

Definition watchlist_clicks (i : nat) (evs : list event) : nat :=
  List.length
    (filter (fun e => match e with
                      | ClickWatchlist j => (j =? i)%nat
                      | _ => false
                      end) evs).

(** A price of whole hundredths, at least 1 and at most [b]. *)
Definition priced (b : Q) (s : StockData) : Prop :=
  hundredth (price s) /\ 1 <= price s /\ price s <= b.

(** The fields of a record that the mutator never writes. *)
Definition static_fields (s : StockData)
  : Z * string * string * string * string * Q * Z * Z :=
  (id s, symbol s, company s, sector s, exchange s, openPrice s, volume s,
   marketCap s).

(** The identifiers [1, 2, ..., n]. *)
Definition ids_upto (n : nat) : list Z :=
  map (fun k => (Z.of_nat k + 1)%Z) (seq 0 n).


(** * Properties *)

(** ** Rounding *)

(** [lra] does not look through a division: turn [_ / 100] into a product. *)
Ltac hundredths :=
  unfold Qdiv in *; change (/ 100) with (1 # 100) in *.

Lemma inject_Z_minus (x y : Z) : inject_Z (x - y) = inject_Z x - inject_Z y.
Proof.
  unfold Z.sub, Qminus. now rewrite inject_Z_plus, inject_Z_opp.
Qed.

Lemma Math_round_ge (z : Z) (x : Q) :
  inject_Z z <= x -> (z <= JS.Math_round x)%Z.
Proof.
  intros H. unfold JS.Math_round.
  rewrite <- (Qfloor_Z z). apply Qfloor_resp_le. lra.
Qed.

Lemma Math_round_le (z : Z) (x : Q) :
  x <= inject_Z z -> (JS.Math_round x <= z)%Z.
Proof.
  intros H. unfold JS.Math_round.
  pose proof (Qfloor_le (x + (1 # 2))) as Hf.
  assert (Hlt : inject_Z (Qfloor (x + (1 # 2))) < inject_Z (z + 1)).
  { rewrite inject_Z_plus. change (inject_Z 1) with 1. lra. }
  rewrite <- Zlt_Qlt in Hlt. lia.
Qed.

Lemma Math_round_near (x : Q) :
  x - (1 # 2) < inject_Z (JS.Math_round x) /\
  inject_Z (JS.Math_round x) <= x + (1 # 2).
Proof.
  unfold JS.Math_round.
  pose proof (Qfloor_le (x + (1 # 2))) as Hl.
  pose proof (Qlt_floor (x + (1 # 2))) as Hu.
  rewrite inject_Z_plus in Hu. change (inject_Z 1) with 1 in Hu.
  split; lra.
Qed.

Lemma Math_floor_bounds (lo hi : Z) (x : Q) :
  inject_Z lo <= x -> x < inject_Z hi ->
  (lo <= JS.Math_floor x < hi)%Z.
Proof.
  intros Hlo Hhi. unfold JS.Math_floor. split.
  - rewrite <- (Qfloor_Z lo). now apply Qfloor_resp_le.
  - pose proof (Qfloor_le x) as Hf.
    assert (Hlt : inject_Z (Qfloor x) < inject_Z hi) by lra.
    now rewrite <- Zlt_Qlt in Hlt.
Qed.

(** A whole number of hundredths counts as itself. *)
Lemma cents_hundredth (k : Z) (x : Q) :
  x == inject_Z k / 100 -> cents x = k.
Proof.
  intros H. unfold cents. apply Z.le_antisymm.
  - apply Math_round_le. rewrite H. hundredths. lra.
  - apply Math_round_ge. rewrite H. hundredths. lra.
Qed.

Lemma rounding_slack_nonneg (p : Q) : 0 <= rounding_slack p.
Proof.
  unfold rounding_slack, Qdiv.
  change (/ 1000000000000) with (1 # 1000000000000).
  pose proof (Qabs_nonneg p). lra.
Qed.

(** ** Strings *)

Lemma append_same_length_inj (a b c d : string) :
  String.length a = String.length b ->
  append a c = append b d -> c = d.
Proof.
  revert b. induction a as [|x a IH]; intros [|y b] Hlen Heq;
    try discriminate; cbn in *.
  - assumption.
  - injection Heq as _ Heq. injection Hlen as Hlen. eauto.
Qed.

Lemma string_of_nat_inj (i j : nat) :
  JS.string_of_nat i = JS.string_of_nat j -> i = j.
Proof.
  unfold JS.string_of_nat. intros H.
  assert (Hnn : forall n, Nat.to_uint n <> Decimal.Nil).
  { intros n. rewrite <- (DecimalNat.Unsigned.of_to n) at 1.
    rewrite DecimalNat.Unsigned.to_of. apply DecimalFacts.unorm_nonnil. }
  apply (f_equal NilZero.uint_of_string) in H.
  rewrite !NilZero.usu in H by apply Hnn.
  injection H as H. now apply DecimalNat.Unsigned.to_uint_inj.
Qed.

(** ** The generator *)

Section Generator.

Variable LIST_ITEM_COUNT : nat.
Variable random : nat -> Q.

Lemma newStock_draws (i p : nat) :
  snd (newStock random i p) = (p + 6)%nat.
Proof. cbn. lia. Qed.

(** The loop appends, for [k = 0 .. n-1], the record built for index
    [i + k] from the six draws starting at [p + 6 k]. *)
Lemma generate_loop_spec (n : nat) :
  forall i stocks p,
    generate_loop random n i stocks p =
    (stocks ++ map (fun k => fst (newStock random (i + k) (p + 6 * k)%nat))
                   (seq 0 n),
     (p + 6 * n)%nat).
Proof.
  induction n as [|n IH]; intros i stocks p.
  - cbn. unfold ret. rewrite app_nil_r. f_equal. lia.
  - cbn [generate_loop]. unfold bind at 1.
    destruct (newStock random i p) as [s p'] eqn:E.
    assert (Hs : s = fst (newStock random i p)) by now rewrite E.
    assert (Hp : p' = (p + 6)%nat)
      by (rewrite <- (newStock_draws i p); now rewrite E).
    rewrite IH. subst p'. f_equal; [|lia].
    rewrite <- app_assoc. f_equal. cbn [app seq map].
    rewrite Nat.add_0_r, Nat.mul_0_r, Nat.add_0_r, <- Hs. f_equal.
    rewrite <- seq_shift, map_map. apply map_ext. intros k.
    replace (S i + k)%nat with (i + S k)%nat by lia.
    replace (p + 6 + 6 * k)%nat with (p + 6 * S k)%nat by lia.
    reflexivity.
Qed.

Lemma generateMockData_spec (p : nat) :
  fst (generateMockData LIST_ITEM_COUNT random p) =
  map (fun k => fst (newStock random k (p + 6 * k)%nat))
      (seq 0 LIST_ITEM_COUNT).
Proof. unfold generateMockData. now rewrite generate_loop_spec. Qed.

Lemma generateMockData_length (p : nat) :
  List.length (fst (generateMockData LIST_ITEM_COUNT random p)) =
  LIST_ITEM_COUNT.
Proof. now rewrite generateMockData_spec, length_map, length_seq. Qed.

(** The fields of a new record, as formulas in the draws. *)
Lemma newStock_price (i p : nat) :
  price (fst (newStock random i p)) =
  inject_Z (JS.Math_round ((random p * 500 + 10) * 100)) / 100.
Proof. reflexivity. Qed.

Lemma newStock_symbol (i p : nat) :
  symbol (fst (newStock random i p)) =
  append (JS.toUpperCase
            (JS.substring0 3 (nth (i mod 10) companies EmptyString)))
         (JS.string_of_nat i).
Proof. reflexivity. Qed.

Hypothesis random_range : unit_interval random.

Lemma newStock_ok (i p : nat) : generated_ok (fst (newStock random i p)).
Proof.
  unfold generated_ok. cbn [newStock bind Math_random ret fst snd
    price openPrice dayHigh dayLow volume marketCap].
  set (k := JS.Math_round ((random p * 500 + 10) * 100)).
  destruct (random_range p) as [H1 H1'].
  destruct (random_range (S p)) as [H2 H2'].
  destruct (random_range (S (S p))) as [H3 H3'].
  destruct (random_range (S (S (S p)))) as [H4 H4'].
  destruct (random_range (S (S (S (S p))))) as [H5 H5'].
  destruct (random_range (S (S (S (S (S p)))))) as [H6 H6'].
  assert (Hk : (1000 <= k <= 51000)%Z).
  { split; [apply Math_round_ge | apply Math_round_le];
      [change (inject_Z 1000) with 1000 | change (inject_Z 51000) with 51000];
      lra. }
  assert (Hk' : 1000 <= inject_Z k /\ inject_Z k <= 51000).
  { destruct Hk as [Ha Hb]. rewrite Zle_Qle in Ha, Hb. now split. }
  set (m := JS.Math_round
              ((inject_Z k / 100 + (random (S p) - (1 # 2)) * 20) * 100)).
  assert (Hm : (k - 1000 <= m <= k + 1000)%Z).
  { split; [apply Math_round_ge | apply Math_round_le];
      [rewrite inject_Z_minus | rewrite inject_Z_plus];
      change (inject_Z 1000) with 1000; hundredths; lra. }
  assert (Hm' : inject_Z k - 1000 <= inject_Z m /\
                inject_Z m <= inject_Z k + 1000).
  { destruct Hm as [Ha Hb]. rewrite Zle_Qle in Ha, Hb.
    rewrite inject_Z_minus in Ha. rewrite inject_Z_plus in Hb.
    now split. }
  set (h := JS.Math_round
              ((inject_Z k / 100 + random (S (S p)) * 15) * 100)).
  assert (Hh : inject_Z k <= inject_Z h).
  { rewrite <- Zle_Qle. apply Math_round_ge. hundredths. lra. }
  set (l := JS.Math_round
              ((inject_Z k / 100 - random (S (S (S p))) * 15) * 100)).
  assert (Hl : inject_Z l <= inject_Z k).
  { rewrite <- Zle_Qle. apply Math_round_le. hundredths. lra. }
  pose proof (Math_floor_bounds 0 10000000
                (random (S (S (S (S p)))) * 10000000)) as Hv.
  pose proof (Math_floor_bounds 0 1000000000
                (random (S (S (S (S (S p))))) * 1000000000)) as Hc.
  change (inject_Z 0) with 0 in Hv, Hc.
  change (inject_Z 10000000) with 10000000 in Hv.
  change (inject_Z 1000000000) with 1000000000 in Hc.
  repeat split; try (hundredths; lra).
  all: try (assert (Hv' := Hv ltac:(lra) ltac:(lra)); lia).
  all: assert (Hc' := Hc ltac:(lra) ltac:(lra)); lia.
Qed.

(** The three-letter prefix of a symbol and the decimal index after it. *)
Lemma symbol_prefix_length (i : nat) :
  String.length
    (JS.toUpperCase (JS.substring0 3 (nth (i mod 10) companies EmptyString)))
  = 3%nat.
Proof.
  assert (Hall : Forall (fun c => String.length
                   (JS.toUpperCase (JS.substring0 3 c)) = 3%nat) companies)
    by (repeat constructor).
  rewrite Forall_forall in Hall. apply Hall, nth_In.
  change (List.length companies) with 10%nat.
  apply Nat.mod_upper_bound. discriminate.
Qed.



End Generator.

(** C10: the ticker symbols of the generated records are pairwise distinct:
    no symbol occurs twice in the list of symbols, whatever the draws. *)
Theorem generateMockData_symbols_distinct
  (LIST_ITEM_COUNT : nat) (random : nat -> Q) (p : nat) :
  NoDup (map symbol (fst (generateMockData LIST_ITEM_COUNT random p))).
Proof.
  rewrite generateMockData_spec, map_map.
  apply Injective_map_NoDup; [|apply seq_NoDup].
  intros i j H. rewrite !newStock_symbol in H.
  apply append_same_length_inj in H.
  - now apply string_of_nat_inj.
  - now rewrite !symbol_prefix_length.
Qed.

(** ** The mutator *)

Section Mutator.

Variable random : nat -> Q.

(** The callback makes exactly one draw. *)
Lemma updateStock_draws (stock : StockData) (p : nat) :
  snd (updateStock random stock p) = S p.
Proof. reflexivity. Qed.

Lemma tick_cons (stock : StockData) (l : list StockData) (p : nat) :
  tick random (stock :: l) p =
  (fst (updateStock random stock p) :: fst (tick random l (S p)),
   snd (tick random l (S p))).
Proof.
  unfold tick. cbn [mapM]. unfold bind at 1.
  cbn [updateStock bind Math_random ret].
  unfold bind. now destruct (mapM (updateStock random) l (S p)).
Qed.

Lemma tick_draws (l : list StockData) :
  forall p, snd (tick random l p) = (p + List.length l)%nat.
Proof.
  induction l as [|s l IH]; intros p.
  - cbn. lia.
  - rewrite tick_cons. cbn [snd List.length]. rewrite IH. lia.
Qed.

Lemma tick_length (l : list StockData) :
  forall p, List.length (fst (tick random l p)) = List.length l.
Proof.
  induction l as [|s l IH]; intros p.
  - reflexivity.
  - rewrite tick_cons. cbn [fst List.length]. now rewrite IH.
Qed.

(** The record at index [i] after a tick is the callback's result on the
    record at index [i] before it, with the draw number [p + i]. *)
Lemma tick_nth_error (l : list StockData) :
  forall p i,
    nth_error (fst (tick random l p)) i =
    option_map (fun s => fst (updateStock random s (p + i)%nat))
               (nth_error l i).
Proof.
  induction l as [|s l IH]; intros p i.
  - now destruct i.
  - rewrite tick_cons. destruct i as [|i]; cbn [fst nth_error option_map].
    + now rewrite Nat.add_0_r.
    + rewrite IH. now replace (S p + i)%nat with (p + S i)%nat by lia.
Qed.

(** A relation that the callback establishes holds between every record
    and its replacement. *)
Lemma tick_Forall2 (R : StockData -> StockData -> Prop) :
  (forall s q, R s (fst (updateStock random s q))) ->
  forall l p, Forall2 R l (fst (tick random l p)).
Proof.
  intros HR l. induction l as [|s l IH]; intros p.
  - constructor.
  - rewrite tick_cons. constructor; [apply HR | apply IH].
Qed.

Lemma updateStock_static (stock : StockData) (p : nat) :
  same_static_fields stock (fst (updateStock random stock p)).
Proof. repeat split. Qed.

(** The stored price is the floored price rounded to two decimals. *)
Lemma updateStock_price_rounded (stock : StockData) (p : nat) :
  rounded2 (Qmax 1 (price stock + change_at random p))
           (price (fst (updateStock random stock p))).
Proof.
  cbn [updateStock bind Math_random ret fst price].
  unfold JS.Math_max, change_at.
  set (x := Qmax 1 (price stock + (random p - (1 # 2)) * 5)).
  destruct (Math_round_near (x * 100)) as [Hlo Hhi].
  split; [eexists; reflexivity | hundredths; split; lra].
Qed.

(** Whatever the old price and the draw, the new price is at least 1. *)
Lemma updateStock_price_floor (stock : StockData) (p : nat) :
  1 <= price (fst (updateStock random stock p)).
Proof.
  cbn [updateStock bind Math_random ret fst price]. unfold JS.Math_max.
  set (x := Qmax 1 (price stock + (random p - (1 # 2)) * 5)).
  assert (Hx : 1 <= x) by apply Q.le_max_l.
  assert (Hr : (100 <= JS.Math_round (x * 100))%Z).
  { apply Math_round_ge. change (inject_Z 100) with 100. lra. }
  rewrite Zle_Qle in Hr. change (inject_Z 100) with 100 in Hr.
  hundredths. lra.
Qed.

Lemma tick_price_floor (l : list StockData) (p : nat) :
  Forall (fun s => 1 <= price s) (fst (tick random l p)).
Proof.
  revert p. induction l as [|s l IH]; intros p.
  - constructor.
  - rewrite tick_cons. constructor; [apply updateStock_price_floor | apply IH].
Qed.

End Mutator.

(** ** Lists updated at an index *)

Lemma nth_error_set_nth {A} (l : list A) :
  forall i v w, nth_error l i = Some w -> nth_error (set_nth i v l) i = Some v.
Proof.
  induction l as [|a l IH]; intros [|i] v w H; try discriminate; cbn in *.
  - reflexivity.
  - eauto.
Qed.

Lemma set_nth_twice {A} (l : list A) :
  forall i u v, set_nth i v (set_nth i u l) = set_nth i v l.
Proof.
  induction l as [|a l IH]; intros [|i] u v; cbn; try reflexivity.
  now rewrite IH.
Qed.

Lemma set_nth_same {A} (l : list A) :
  forall i w, nth_error l i = Some w -> set_nth i w l = l.
Proof.
  induction l as [|a l IH]; intros [|i] w H; try discriminate; cbn in *.
  - now injection H as ->.
  - f_equal. eauto.
Qed.

Lemma Forall2_static_ids (l l' : list StockData) :
  Forall2 same_static_fields l l' -> map id l' = map id l.
Proof.
  induction 1 as [|old new l l' H _ IH]; cbn; [reflexivity|].
  destruct H as (Hid & _). now rewrite Hid, IH.
Qed.

(** ** Objects replaced by a tick *)

Section Objects.

Variable random : nat -> Q.

Lemma Forall2_In_left {A B} (R : A -> B -> Prop) (l : list A) (l' : list B)
  (a : A) :
  Forall2 R l l' -> In a l -> exists b, R a b.
Proof.
  induction 1 as [|x y l l' Hxy _ IH]; intros Hin; [destruct Hin|].
  destruct Hin as [<- | Hin]; eauto.
Qed.

Lemma deref_new_object (h : Heap) (o fields : StockData) (a : ref) :
  deref h a = Some fields -> deref (h ++ [o]) a = Some fields.
Proof.
  unfold deref. intros H. rewrite nth_error_app1; [exact H|].
  apply nth_error_Some. congruence.
Qed.

(** What a tick does to the array and to the heap: the new array holds
    the next free references, in order, and the heap is extended by the
    values the callback computes, one object per element. *)
Lemma tickObjects_spec (prevStocks : list ref) :
  forall (olds : list StockData) (h : Heap) (p : nat),
    Forall2 (fun a o => deref h a = Some o) prevStocks olds ->
    tickObjects random prevStocks h p =
    Some (seq (List.length h) (List.length prevStocks),
          h ++ fst (tick random olds p),
          (p + List.length prevStocks)%nat).
Proof.
  induction prevStocks as [|a rest IH]; intros olds h p H;
    inversion H as [|a' o rest' olds' Ha Hrest]; subst.
  - cbn. now rewrite app_nil_r, Nat.add_0_r.
  - cbn [tickObjects]. rewrite Ha.
    rewrite (surjective_pairing (updateStock random o p)).
    rewrite updateStock_draws. cbn [new_object].
    rewrite (IH olds' (h ++ [fst (updateStock random o p)]) (S p)).
    + rewrite tick_cons. cbn [fst List.length seq].
      rewrite length_app, <- app_assoc. cbn [List.length app].
      rewrite Nat.add_1_r.
      now replace (S p + List.length rest)%nat
        with (p + S (List.length rest))%nat by lia.
    + eapply Forall2_impl; [|exact Hrest].
      intros b fields. apply deref_new_object.
Qed.

Lemma deref_seq_app (h news : Heap) :
  Forall2 (fun a o => deref (h ++ news) a = Some o)
          (seq (List.length h) (List.length news)) news.
Proof.
  revert h. induction news as [|o news IH]; intros h; [constructor|].
  cbn [List.length seq]. constructor.
  - unfold deref. rewrite nth_error_app2, Nat.sub_diag by lia. reflexivity.
  - specialize (IH (h ++ [o])).
    rewrite length_app, Nat.add_1_r, <- app_assoc in IH. exact IH.
Qed.

(** The generator leaves an array whose references all point to the
    objects it has created. *)
Lemma generateObjects_deref (LIST_ITEM_COUNT : nat) :
  let '(arr, h, _) := generateObjects LIST_ITEM_COUNT random in
  Forall2 (fun a o => deref h a = Some o) arr h.
Proof.
  unfold generateObjects.
  destruct (generateMockData LIST_ITEM_COUNT random 0%nat) as [l p].
  exact (deref_seq_app [] l).
Qed.

(** C6: a tick replaces every record by a new object, whatever the values
    it writes: every element of the new array is a reference that did not
    exist before the tick, so it differs from every element of the old
    array, and the new references are pairwise distinct; no existing
    object is written.  The new objects carry the values the callback
    computes, with the identifier, symbol, company, sector, exchange,
    opening price, volume and market capitalisation of the objects they
    replace; the array keeps its length and its identifiers. *)
Theorem tick_replaces_every_record (prevStocks : list ref)
  (olds : list StockData) (h : Heap) (p : nat) :
  Forall2 (fun a o => deref h a = Some o) prevStocks olds ->
  exists (newStocks : list ref) (h' : Heap),
    tickObjects random prevStocks h p
    = Some (newStocks, h', (p + List.length prevStocks)%nat) /\
    Forall (fun a => deref h a = None /\ ~ In a prevStocks) newStocks /\
    NoDup newStocks /\
    (forall a o, deref h a = Some o -> deref h' a = Some o) /\
    Forall2 (fun a o => deref h' a = Some o)
            newStocks (fst (tick random olds p)) /\
    Forall2 same_static_fields olds (fst (tick random olds p)) /\
    List.length newStocks = List.length prevStocks /\
    map id (fst (tick random olds p)) = map id olds.
Proof.
  intros H. do 2 eexists. split; [apply tickObjects_spec, H|].
  assert (Hlen : List.length prevStocks = List.length olds)
    by (eapply Forall2_length; exact H).
  assert (Hst : Forall2 same_static_fields olds (fst (tick random olds p)))
    by (apply tick_Forall2; intros; apply updateStock_static).
  repeat split.
  - apply Forall_forall. intros a Ha. apply in_seq in Ha. split.
    + apply nth_error_None. lia.
    + intros Hin. destruct (Forall2_In_left _ _ _ _ H Hin) as (o & Ho).
      assert (a < List.length h)%nat
        by (apply nth_error_Some; unfold deref in Ho; congruence).
      lia.
  - apply seq_NoDup.
  - intros a o Ha. unfold deref. rewrite nth_error_app1; [exact Ha|].
    apply nth_error_Some. unfold deref in Ha. congruence.
  - rewrite Hlen, <- (tick_length random olds p). apply deref_seq_app.
  - exact Hst.
  - apply length_seq.
  - now apply Forall2_static_ids.
Qed.

End Objects.

(** ** The application *)

Section Application.

Variable LIST_ITEM_COUNT : nat.
Variable random : nat -> Q.
Variable exponentString : Binary64.float -> string.

Local Abbreviation app_step := (step random exponentString).
Local Abbreviation app_run := (run random exponentString).
Local Abbreviation app_init := (initialState LIST_ITEM_COUNT random).

Lemma step_Tick (st : AppState) :
  fst (app_step st Tick) =
  {| stocks := fst (tick random (stocks st) (draws st));
     rows := rows st;
     draws := snd (tick random (stocks st) (draws st)) |}.
Proof.
  cbn [step]. now destruct (tick random (stocks st) (draws st)).
Qed.

(** Neither click handler writes the record collection. *)
Lemma step_click_stocks (st : AppState) (i : nat) :
  stocks (fst (app_step st (ClickWatchlist i))) = stocks st /\
  fst (app_step st (ClickTrade i)) = st.
Proof.
  cbn [step]. split.
  - now destruct (nth_error (stocks st) i), (nth_error (rows st) i).
  - now destruct (nth_error (stocks st) i).
Qed.

Lemma step_price_floor (st : AppState) (e : event) :
  Forall (fun s => 1 <= price s) (stocks st) ->
  Forall (fun s => 1 <= price s) (stocks (fst (app_step st e))).
Proof.
  intros H. destruct e as [|i|i].
  - rewrite step_Tick. apply tick_price_floor.
  - now rewrite (proj1 (step_click_stocks st i)).
  - now rewrite (proj2 (step_click_stocks st i)).
Qed.

Lemma run_price_floor (evs : list event) :
  forall st,
    Forall (fun s => 1 <= price s) (stocks st) ->
    Forall (fun s => 1 <= price s) (stocks (app_run evs st)).
Proof.
  induction evs as [|e evs IH]; intros st H; [exact H|].
  cbn [run fold_left]. apply IH, step_price_floor, H.
Qed.

Lemma initialState_stocks :
  stocks app_init = fst (generateMockData LIST_ITEM_COUNT random 0%nat).
Proof.
  unfold initialState.
  now destruct (generateMockData LIST_ITEM_COUNT random 0%nat).
Qed.


(** C8: whatever the row's flag, clicking the watchlist button twice
    brings the flag, hence the button's class and label, back to where
    they were, and the whole application state with them; a watchlist
    click leaves the record collection as it was, and a trade click
    leaves the whole state as it was. *)
Theorem watchlist_toggle_twice (st : AppState) (i : nat) :
  let st1 := fst (app_step st (ClickWatchlist i)) in
  let st2 := fst (app_step st1 (ClickWatchlist i)) in
  (forall props w,
      let w1 := fst (onWatchlistClick props w) in
      let w2 := fst (onWatchlistClick props w1) in
      w2 = w /\ watchlistButton w2 = watchlistButton w) /\
  st2 = st /\
  stocks st1 = stocks st /\
  fst (app_step st (ClickTrade i)) = st.
Proof.
  cbv zeta. split; [|split; [|apply step_click_stocks]].
  - intros props w. cbn. now rewrite negb_involutive.
  - cbn [step].
    destruct (nth_error (stocks st) i) as [props|] eqn:Es;
      [destruct (nth_error (rows st) i) as [w|] eqn:Er|];
      cbn [fst onWatchlistClick stocks rows draws];
      rewrite ?Es, ?Er; cbn [fst]; try reflexivity.
    rewrite (nth_error_set_nth _ _ _ _ Er).
    cbn [fst onWatchlistClick stocks rows draws].
    rewrite set_nth_twice, negb_involutive, (set_nth_same _ _ _ Er).
    now destruct st.
Qed.

Hypothesis random_range : unit_interval random.

(** C1: in every state the application reaches, after any number of
    mutator ticks (and any clicks in between), every record's price is
    at least 1. *)
Theorem price_floor (evs : list event) :
  Forall (fun s => 1 <= price s) (stocks (app_run evs app_init)).
Proof.
  apply run_price_floor.
  rewrite initialState_stocks, generateMockData_spec, Forall_map, Forall_forall.
  intros k _.
  destruct (newStock_ok random random_range k (0 + 6 * k)) as ((Hlo & _) & _).
  lra.
Qed.

(** C3 (as the code has it): a tick maps the record at every index to a
    copy whose price is the old price plus the drawn change, which lies
    in [-2.5, 2.5], floored at 1 and rounded to two decimals, whose
    day-high is the larger of the old day-high and the floored, unrounded
    new price, and whose day-low is the smaller of the old day-low and
    that same floored, unrounded new price.  The sum and the rounding to
    two decimals are the binary64 ones: they are stated up to
    [rounding_slack]; the floor at 1 and the two comparisons are exact. *)
Theorem tick_functional (l : list StockData) (p i : nat) (old : StockData) :
  nth_error l i = Some old ->
  exists new,
    nth_error (fst (tick random l p)) i = Some new /\
    same_static_fields old new /\
    (-(5 # 2) <= change_at random (p + i) /\
     change_at random (p + i) <= 5 # 2) /\
    tick_relation_floored (change_at random (p + i)) old new.
Proof.
  intros Hold. eexists. rewrite tick_nth_error, Hold. cbn [option_map].
  split; [reflexivity|]. split; [apply updateStock_static|].
  destruct (random_range (p + i)%nat) as [H0 H1]. split.
  - unfold change_at. split; lra.
  - pose proof (rounding_slack_nonneg (price old)) as Htol.
    destruct (updateStock_price_rounded random old (p + i))
      as ((k & Hk) & Hlo & Hhi).
    exists (Qmax 1 (price old + change_at random (p + i))).
    unfold within. repeat split; try reflexivity; try lra.
    + apply Q.le_max_l.
    + exists k. rewrite Hk. split; lra.
Qed.

End Application.

(** ** Concrete runs of the mutator *)

Lemma draws_alternating_range : unit_interval draws_alternating.
Proof.
  intros n. unfold draws_alternating.
  destruct (Nat.even n); split; reflexivity || discriminate.
Qed.

Lemma price_floor_witness :
  unit_interval draws_alternating /\
  Forall (fun s => 1 <= price s)
    (stocks (run draws_alternating no_exponent
               [Tick; ClickWatchlist 1; Tick; ClickTrade 0; Tick]
               (initialState 3 draws_alternating))).
Proof.
  split.
  - intros n. unfold draws_alternating.
    destruct (Nat.even n); split; reflexivity || discriminate.
  - apply (price_floor 3 draws_alternating no_exponent).
    intros n. unfold draws_alternating.
    destruct (Nat.even n); split; reflexivity || discriminate.
Defined.


Lemma tick_replaces_every_record_witness :
  let h := [stock_near_floor; stock_near_floor] in
  let prevStocks := [1%nat; 0%nat] in
  Forall2 (fun a o => deref h a = Some o) prevStocks h /\
  exists (newStocks : list ref) (h' : Heap),
    tickObjects draws_alternating prevStocks h 0%nat
    = Some (newStocks, h', (0 + List.length prevStocks)%nat) /\
    Forall (fun a => deref h a = None /\ ~ In a prevStocks) newStocks /\
    NoDup newStocks /\
    (forall a o, deref h a = Some o -> deref h' a = Some o) /\
    Forall2 (fun a o => deref h' a = Some o)
            newStocks (fst (tick draws_alternating h 0%nat)) /\
    Forall2 same_static_fields h (fst (tick draws_alternating h 0%nat)) /\
    List.length newStocks = List.length prevStocks /\
    map id (fst (tick draws_alternating h 0%nat)) = map id h.
Proof.
  cbv zeta. split.
  - repeat constructor.
  - apply (tick_replaces_every_record draws_alternating).
    repeat constructor.
Defined.

(** A tick that leaves every value of a record as it was still puts a new
    object into the array: with the draw 1/2 the record at 2.00 keeps its
    price, day-high and day-low, and the array holds the reference 1
    where it held the reference 0. *)
Lemma tick_unchanged_values_new_object :
  exists (h' : Heap) (old new : StockData),
    tickObjects (fun _ => 1 # 2) [0%nat] [stock_near_floor] 0%nat
    = Some ([1%nat], h', 1%nat) /\
    deref h' 0%nat = Some old /\ deref h' 1%nat = Some new /\
    static_fields new = static_fields old /\
    price new == price old /\
    dayHigh new == dayHigh old /\ dayLow new == dayLow old.
Proof.
  do 3 eexists. split; [reflexivity|]. repeat split.
Qed.

Lemma tick_functional_witness :
  unit_interval draws_alternating /\
  nth_error [stock_near_floor] 0 = Some stock_near_floor /\
  exists new,
    nth_error (fst (tick draws_alternating [stock_near_floor] 0%nat)) 0
      = Some new /\
    same_static_fields stock_near_floor new /\
    (-(5 # 2) <= change_at draws_alternating 0 /\
     change_at draws_alternating 0 <= 5 # 2) /\
    tick_relation_floored (change_at draws_alternating 0)
      stock_near_floor new.
Proof.
  split; [|split; [reflexivity|]].
  - intros n. unfold draws_alternating.
    destruct (Nat.even n); split; reflexivity || discriminate.
  - apply (tick_functional draws_alternating).
    + intros n. unfold draws_alternating.
      destruct (Nat.even n); split; reflexivity || discriminate.
    + reflexivity.
Defined.

(** C3 as worded fails: with the draw 0 the change is -2.5, the sum
    2 - 2.5 is floored to 1, and the day-low becomes min(1.5, 1) = 1, not
    min(1.5, -0.5) = -0.5 as a comparison with the unfloored price would
    give. *)
Lemma tick_not_unfloored :
  ~ tick_relation (fun x => x) (change_at draws_zero 0) stock_near_floor
      (fst (updateStock draws_zero stock_near_floor 0%nat)).
Proof.
  intros (_ & _ & H). vm_compute in H. discriminate H.
Qed.

(** C2 fails on the code: generate one record at 100.00 and tick once.
    With the change +5/512 the floored price 100.009765625 is stored as
    100.01 while the day-high becomes 100.009765625; with the change
    -5/512 the price is stored as 99.99 while the day-low becomes
    99.990234375. *)
Theorem tick_breaks_high_low :
  Exists (fun s => dayHigh s < price s)
    (stocks (run draws_up no_exponent [Tick] (initialState 1 draws_up))) /\
  Exists (fun s => price s < dayLow s)
    (stocks (run draws_down no_exponent [Tick] (initialState 1 draws_down))).
Proof.
  split; apply Exists_cons_hd; reflexivity.
Qed.

(** The draws of these two runs are values [Math.random()] can return. *)
Lemma draws_flat_range (seventh : Q) :
  0 <= seventh /\ seventh < 1 -> unit_interval (draws_flat seventh).
Proof.
  intros Hs n. unfold draws_flat.
  do 7 (destruct n as [|n]; [exact Hs || (split; reflexivity || discriminate)|]).
  split; reflexivity || discriminate.
Qed.

Lemma draws_up_down_range : unit_interval draws_up /\ unit_interval draws_down.
Proof.
  split; apply draws_flat_range; split; reflexivity || discriminate.
Qed.

(** What does hold after an update: the day's extremes bracket the
    floored, unrounded price, so the stored price can leave them by at
    most half a hundredth. *)
Lemma updateStock_high_low_slack (random : nat -> Q) (stock : StockData)
  (p : nat) :
  let new := fst (updateStock random stock p) in
  dayLow new - (1 # 200) < price new /\ price new <= dayHigh new + (1 # 200).
Proof.
  cbv zeta.
  destruct (updateStock_price_rounded random stock p) as (_ & Hlo & Hhi).
  cbn [updateStock bind Math_random ret fst price dayHigh dayLow] in *.
  unfold JS.Math_max, JS.Math_min, change_at in *.
  set (x := Qmax 1 (price stock + (random p - (1 # 2)) * 5)) in *.
  set (y := inject_Z (JS.Math_round (x * 100)) / 100) in *.
  pose proof (Q.le_min_r (dayLow stock) x).
  pose proof (Q.le_max_r (dayHigh stock) x).
  split; lra.
Qed.

(** The same run replayed in binary64, where the seven draws are exact:
    the generated record is at 100 on all four prices, and the tick leaves
    the day-high below the stored price. *)
Lemma binary64_tick_breaks_high :
  let hundred := Binary64.of_Z 100 in
  Binary64.generatePrices
    (Binary64.ratio 23593 131072) (Binary64.ratio 1 2)
    (Binary64.of_Z 0) (Binary64.of_Z 0)
  = (hundred, hundred, hundred, hundred) /\
  let '(price', dayHigh', _) :=
    Binary64.updatePrices (Binary64.ratio 257 512) hundred hundred hundred in
  Binary64.lt dayHigh' price' = true.
Proof. split; vm_compute; reflexivity. Qed.

(** Where the exact model and binary64 part: a price is stored as the
    binary64 nearest to [k / 100].  The draws 2^-16 and 1 - 2^-13 generate
    the price 10.01 and the opening price 20.01, exactly 10 apart as
    hundredths; the two binary64 values are 10 + 2^-49 apart. *)
Lemma binary64_hundredths_gap :
  let '(price, openPrice, _, _) :=
    Binary64.generatePrices
      (Binary64.ratio 1 65536)
      (Binary64.sub (Binary64.of_Z 1) (Binary64.ratio 1 8192))
      (Binary64.of_Z 0) (Binary64.of_Z 0) in
  price = Binary64.ratio 1001 100 /\
  openPrice = Binary64.ratio 2001 100 /\
  Binary64.sub openPrice price
  = Binary64.add (Binary64.of_Z 10) (Binary64.ratio 1 (2 ^ 49)).
Proof. vm_compute. repeat split. Qed.

(** C4 as worded fails on the stored numbers.  With the draws 2^-16 and
    1 - 2^-13 the generator stores the binary64 nearest to 10.01 as the
    price and the binary64 nearest to 20.01 as the opening price: the
    opening price exceeds the price by more than 10, both in the
    program's own subtraction and comparison and as exact values. *)
Lemma generated_open_price_gap :
  let '(price, openPrice, _, _) :=
    Binary64.generatePrices
      (Binary64.ratio 1 65536)
      (Binary64.sub (Binary64.of_Z 1) (Binary64.ratio 1 8192))
      (Binary64.of_Z 0) (Binary64.of_Z 0) in
  Binary64.lt (Binary64.of_Z 10) (Binary64.sub openPrice price) = true /\
  10 < Binary64.value openPrice - Binary64.value price.
Proof. vm_compute. split; reflexivity. Qed.

(** ** The formatters *)

Lemma length_append (a b : string) :
  String.length (append a b) = (String.length a + String.length b)%nat.
Proof. induction a as [|c a IH]; cbn; [reflexivity | now rewrite IH]. Qed.

Lemma length_substring (s : string) :
  forall n m, (n + m <= String.length s)%nat ->
              String.length (substring n m s) = m.
Proof.
  induction s as [|c s IH]; intros [|n] [|m] H; cbn in *;
    try reflexivity; try lia.
  - rewrite (IH 0%nat m) by lia. reflexivity.
  - apply IH. lia.
  - apply IH. lia.
Qed.

Lemma length_zeros (k : nat) : String.length (JS.zeros k) = k.
Proof. induction k; cbn; congruence. Qed.

(** The digits of [toFixed(2)] end with a point and two characters. *)
Lemma fixed2_digits_shape (n : Z) :
  exists a b,
    JS.fixed2_digits n = append a (append "." b) /\ String.length b = 2%nat.
Proof.
  unfold JS.fixed2_digits.
  set (m := NilZero.string_of_uint (N.to_uint (Z.to_N n))).
  set (m' := if (String.length m <=? 2)%nat
             then append (JS.zeros (3 - String.length m)) m else m).
  do 2 eexists. split; [reflexivity|].
  apply length_substring.
  assert (2 <= String.length m')%nat; [|lia].
  unfold m'. destruct (Nat.leb_spec (String.length m) 2).
  - rewrite length_append, length_zeros. lia.
  - lia.
Qed.

Section Formatting.

Variable toLocaleString : Z -> string.
Variable exponentString : Binary64.float -> string.

Local Abbreviation fixed := (quotientFixed2 exponentString).
Local Abbreviation volumeText := (formatVolume exponentString).
Local Abbreviation capText := (formatMarketCap toLocaleString exponentString).

(** Below 1e21 [toFixed(2)] prints exactly two decimals. *)
Lemma toFixed2_two_decimals (s : bool) (m : positive) (e : Z) :
  Binary64.needs_exponent m e = false ->
  exists a b,
    Binary64.toFixed2 exponentString (S754_finite s m e) =
    append a (append "." b) /\
    String.length b = 2%nat.
Proof.
  intros Hx. unfold Binary64.toFixed2. rewrite Hx.
  match goal with
  | |- context [JS.fixed2_digits ?n] =>
      destruct (fixed2_digits_shape n) as (a & b & Hab & Hb); rewrite Hab
  end.
  exists (append (if s then "-"%string else EmptyString) a), b.
  split; [now destruct s | exact Hb].
Qed.

(** C5 (as the code has it): the volume formatter uses the suffix M from
    1e6 upwards and K from 1e3 up to 1e6, and prints smaller values as
    they are; the market-cap formatter puts a dollar sign in front and
    uses B from 1e9 upwards and M from 1e6 up to 1e9, and prints smaller
    values in the locale's format; the abbreviated number is the quotient
    written by [toFixed(2)].  2,500,000 gives "2.50M", 500 gives "500" and
    a market cap of 1,500,000,000 gives "$1.50B". *)
Theorem format_suffixes :
  (forall vol, (1000000 <= vol)%Z ->
     volumeText vol = append (fixed vol 1000000) "M") /\
  (forall vol, (1000 <= vol < 1000000)%Z ->
     volumeText vol = append (fixed vol 1000) "K") /\
  (forall vol, (vol < 1000)%Z ->
     volumeText vol = Number_toString exponentString vol) /\
  (forall cap, (1000000000 <= cap)%Z ->
     capText cap = append "$" (append (fixed cap 1000000000) "B")) /\
  (forall cap, (1000000 <= cap < 1000000000)%Z ->
     capText cap = append "$" (append (fixed cap 1000000) "M")) /\
  (forall cap, (cap < 1000000)%Z ->
     capText cap = append "$" (toLocaleString cap)) /\
  volumeText 2500000 = "2.50M"%string /\
  volumeText 500 = "500"%string /\
  capText 1500000000 = "$1.50B"%string.
Proof.
  unfold formatVolume, formatMarketCap.
  repeat match goal with |- _ /\ _ => split end.
  7-9: vm_compute; reflexivity.
  all: intros v Hv.
  all: repeat match goal with
         | |- context [(?a <=? ?b)%Z] => destruct (Z.leb_spec a b); try lia
         end.
  all: reflexivity.
Qed.

End Formatting.

(** C5 as worded fails for the volume formatter: it has no B suffix, and
    a volume of 2,500,000,000 is printed as "2500.00M", not "2.50B". *)
Lemma formatVolume_has_no_B :
  ~ abbreviates_KMB (quotientFixed2 no_exponent) "" (formatVolume no_exponent).
Proof.
  intros H. destruct (H 2500000000%Z) as (HB & _).
  specialize (HB ltac:(lia)). vm_compute in HB. discriminate HB.
Qed.

Lemma formatVolume_billions :
  formatVolume no_exponent 2500000000 = "2500.00M"%string.
Proof. vm_compute. reflexivity. Qed.

(** The quotient is rounded as a binary64: 1005000 / 1000000 is the
    binary64 just below 1.005 and prints as 1.00. *)
Lemma formatVolume_binary_tie :
  formatVolume no_exponent 1005000 = "1.00M"%string /\
  formatVolume no_exponent 1015000 = "1.01M"%string.
Proof. split; vm_compute; reflexivity. Qed.

(** ** The frame-rate status *)

(** C7: the status text has exactly three values, the boundaries are 20
    and 50, and 19 is poor, 20 and 49 are reduced, 50 is optimal. *)
Theorem fps_status_tiers :
  getStatusText 19 = tier_text Poor /\
  getStatusText 20 = tier_text Reduced /\
  getStatusText 49 = tier_text Reduced /\
  getStatusText 50 = tier_text Optimal /\
  (forall fps : Z,
      ((fps < 20)%Z <-> getStatusText fps = tier_text Poor) /\
      ((20 <= fps < 50)%Z <-> getStatusText fps = tier_text Reduced) /\
      ((50 <= fps)%Z <-> getStatusText fps = tier_text Optimal)) /\
  (forall t u : tier, tier_text t = tier_text u -> t = u).
Proof.
  do 4 (split; [reflexivity|]). split.
  - intros fps. unfold getStatusText, tier_text.
    destruct (Z.leb_spec 50 fps); destruct (Z.leb_spec 20 fps);
      repeat split; intros; try reflexivity; try lia; congruence.
  - intros [] [] H; try reflexivity; discriminate H.
Qed.

(** The background colour changes at the same two boundaries. *)
Lemma fps_colour_tiers (fps : Z) :
  getBackgroundColor fps =
  (if (fps <? 20)%Z then "#ef4444"
   else if (50 <=? fps)%Z then "#22c55e" else "#eab308")%string.
Proof.
  unfold getBackgroundColor.
  destruct (Z.ltb_spec fps 20); [reflexivity|].
  destruct (Z.ltb_spec fps 50), (Z.leb_spec 50 fps); try reflexivity; lia.
Qed.

(** ** The percentage change with a zero opening price *)

(** C9: when the opening price is zero (of either sign) the percentage
    change [(price - openPrice) / openPrice * 100] is not a finite number,
    whatever the price; the expression has no test on the divisor. *)
Theorem changePercent_zero_open (price : Binary64.float) (s : bool) :
  Binary64.isFinite (Binary64.changePercent price (S754_zero s)) = false.
Proof.
  destruct price as [sx|sx| |sx m e]; destruct s; try destruct sx;
    vm_compute; reflexivity.
Qed.

(** It is NaN when the price is a zero or NaN, an infinity otherwise. *)
Lemma changePercent_zero_open_value (price : Binary64.float) (s : bool) :
  Binary64.changePercent price (S754_zero s) =
  match price with
  | S754_zero _ | S754_nan => S754_nan
  | S754_infinity sx | S754_finite sx _ _ => S754_infinity (xorb sx s)
  end.
Proof.
  destruct price as [sx|sx| |sx m e]; destruct s; try destruct sx;
    vm_compute; reflexivity.
Qed.

(** What the row then shows for the percentage. *)
Lemma changePercent_zero_open_text (price : Binary64.float) (s : bool) :
  let text :=
    Binary64.toFixed2 no_exponent
      (Binary64.changePercent price (S754_zero s)) in
  text = "NaN"%string \/ text = "Infinity"%string \/ text = "-Infinity"%string.
Proof.
  cbv zeta. rewrite changePercent_zero_open_value.
  destruct price as [sx|sx| |sx m e]; cbn; auto;
    destruct (xorb sx s); auto.
Qed.

(** With a non-zero opening price the percentage is the usual one: price
    110 against 100 shows 10.00 and the upward indicator. *)
Lemma changePercent_example :
  Binary64.toFixed2 no_exponent
    (Binary64.changePercent (Binary64.of_Z 110) (Binary64.of_Z 100))
  = "10.00"%string /\
  Binary64.isPositive (Binary64.of_Z 110) (Binary64.of_Z 100) = true.
Proof. split; vm_compute; reflexivity. Qed.

(** A zero opening price is a value the generator can produce: with all
    draws equal to 0 the base price is 10.00 and the opening price
    10.00 - 10.00. *)
Lemma zero_open_price_generated :
  Forall (fun s => openPrice s == 0)
    (fst (generateMockData 2 draws_zero 0%nat)).
Proof. repeat constructor. Qed.

(** * Further properties of the code *)

(** ** More on the generator *)

Section GeneratorMore.

Variable LIST_ITEM_COUNT : nat.
Variable random : nat -> Q.

Lemma generateMockData_run (p : nat) :
  generateMockData LIST_ITEM_COUNT random p =
  (map (fun k => fst (newStock random k (p + 6 * k)%nat))
       (seq 0 LIST_ITEM_COUNT),
   (p + 6 * LIST_ITEM_COUNT)%nat).
Proof. unfold generateMockData. now rewrite generate_loop_spec. Qed.

End GeneratorMore.

(** An integer bracket of [x] brackets [Math.round(x)]. *)
Lemma Math_round_between (lo hi : Z) (x : Q) :
  inject_Z lo <= x -> x <= inject_Z hi ->
  inject_Z lo <= inject_Z (JS.Math_round x) /\
  inject_Z (JS.Math_round x) <= inject_Z hi.
Proof.
  intros Hlo Hhi. rewrite <- !Zle_Qle.
  split; [now apply Math_round_ge | now apply Math_round_le].
Qed.

Section GeneratorIds.

Variable LIST_ITEM_COUNT : nat.
Variable random : nat -> Q.

(** X1: [generateMockData] returns exactly [LIST_ITEM_COUNT] records, whose
    identifiers are 1, 2, ..., [LIST_ITEM_COUNT] in this order (hence
    pairwise distinct), and it calls [Math.random()] exactly six times per
    record. *)
Theorem generateMockData_ids (p : nat) :
  let '(stocks, p') := generateMockData LIST_ITEM_COUNT random p in
  List.length stocks = LIST_ITEM_COUNT /\
  map id stocks = ids_upto LIST_ITEM_COUNT /\
  NoDup (map id stocks) /\
  p' = (p + 6 * LIST_ITEM_COUNT)%nat.
Proof.
  rewrite generateMockData_run.
  assert (Hid : map id (map (fun k => fst (newStock random k (p + 6 * k)%nat))
                          (seq 0 LIST_ITEM_COUNT)) = ids_upto LIST_ITEM_COUNT).
  { rewrite map_map. reflexivity. }
  repeat split.
  - now rewrite length_map, length_seq.
  - exact Hid.
  - rewrite Hid. apply Injective_map_NoDup; [|apply seq_NoDup].
    intros a b H. lia.
Qed.

End GeneratorIds.

Section GeneratorLabels.

Variable LIST_ITEM_COUNT : nat.
Variable random : nat -> Q.

(** Every generated record is the loop body's result for some index. *)
Lemma generateMockData_In (p : nat) (s : StockData) :
  In s (fst (generateMockData LIST_ITEM_COUNT random p)) ->
  exists k, (k < LIST_ITEM_COUNT)%nat /\
            s = fst (newStock random k (p + 6 * k)%nat).
Proof.
  rewrite generateMockData_spec, in_map_iff.
  intros (k & <- & Hk). apply in_seq in Hk. exists k. split; [lia | reflexivity].
Qed.

Lemma newStock_labels (k q : nat) :
  let s := fst (newStock random k q) in
  company s = append (nth (k mod 10) companies EmptyString) " Inc." /\
  sector s = nth (k mod 5) sectors EmptyString /\
  exchange s = nth (k mod 5) exchanges EmptyString.
Proof. repeat split. Qed.

Lemma company_index (a b : nat) :
  (a < 10)%nat -> (b < 10)%nat ->
  append (nth a companies EmptyString) " Inc." =
  append (nth b companies EmptyString) " Inc." ->
  a = b.
Proof.
  intros Ha Hb.
  do 10 (destruct a as [|a]; [
    do 10 (destruct b as [|b]; [reflexivity || discriminate|]); lia |]).
  lia.
Qed.

(** X2: sector and exchange are chosen by the same index [i % 5], so a
    generated record always pairs the k-th sector with the k-th exchange
    (Technology with NYSE, Finance with NASDAQ, ...); and because the
    company is chosen by [i % 10], two generated records with the same
    company name have the same sector and the same exchange. *)
Theorem generateMockData_labels (p : nat) (s t : StockData) :
  In s (fst (generateMockData LIST_ITEM_COUNT random p)) ->
  In t (fst (generateMockData LIST_ITEM_COUNT random p)) ->
  In (sector s, exchange s) (combine sectors exchanges) /\
  (company s = company t -> sector s = sector t /\ exchange s = exchange t).
Proof.
  intros Hs Ht.
  apply generateMockData_In in Hs as (i & _ & ->).
  apply generateMockData_In in Ht as (j & _ & ->).
  destruct (newStock_labels i (p + 6 * i)) as (Hc & Hse & Hex).
  destruct (newStock_labels j (p + 6 * j)) as (Hc' & Hse' & Hex').
  rewrite Hc, Hse, Hex, Hc', Hse', Hex'. clear Hc Hse Hex Hc' Hse' Hex'.
  split.
  - assert (Hlt : (i mod 5 < 5)%nat) by (apply Nat.mod_upper_bound; lia).
    destruct (i mod 5)%nat as [|[|[|[|[|n]]]]]; cbn; auto 10. lia.
  - intros H. apply company_index in H;
      try (apply Nat.mod_upper_bound; lia).
    assert (Hij : (i mod 5 = j mod 5)%nat).
    { rewrite <- (Nat.Div0.mod_mod i 10) in H. clear -H.
      pose proof (Nat.div_mod_eq i 10). pose proof (Nat.div_mod_eq j 10).
      pose proof (Nat.div_mod_eq i 5). pose proof (Nat.div_mod_eq j 5).
      pose proof (Nat.mod_upper_bound i 5). pose proof (Nat.mod_upper_bound j 5).
      pose proof (Nat.mod_upper_bound i 10). pose proof (Nat.mod_upper_bound j 10).
      rewrite Nat.Div0.mod_mod in H. lia. }
    now rewrite Hij.
Qed.

Hypothesis random_range : unit_interval random.



End GeneratorLabels.

(** ** More on the mutator *)

Lemma Math_round_mono (x y : Q) :
  x <= y -> (JS.Math_round x <= JS.Math_round y)%Z.
Proof. intros H. unfold JS.Math_round. apply Qfloor_resp_le. lra. Qed.

Section MutatorMore.

Variable random : nat -> Q.

(** A property the callback establishes from a precondition on the old
    record holds after the tick for every record. *)
Lemma tick_Forall_pre (P Q : StockData -> Prop) :
  (forall s q, P s -> Q (fst (updateStock random s q))) ->
  forall l p, Forall P l -> Forall Q (fst (tick random l p)).
Proof.
  intros HPQ l. induction l as [|s l IH]; intros p Hl.
  - constructor.
  - inversion Hl as [|? ? Hs Hl']; subst. rewrite tick_cons.
    constructor; [now apply HPQ | now apply IH].
Qed.

Lemma tick_Forall2_pre (P : StockData -> Prop)
  (R : StockData -> StockData -> Prop) :
  (forall s q, P s -> R s (fst (updateStock random s q))) ->
  forall l p, Forall P l -> Forall2 R l (fst (tick random l p)).
Proof.
  intros HPR l. induction l as [|s l IH]; intros p Hl.
  - constructor.
  - inversion Hl as [|? ? Hs Hl']; subst. rewrite tick_cons.
    constructor; [now apply HPR | now apply IH].
Qed.

(** X4: whatever the records were, a tick never lowers a day-high, never
    raises a day-low, and leaves every record with day-low <= day-high. *)
Theorem tick_extremes (l : list StockData) (p : nat) :
  Forall2 (fun old new =>
             dayHigh old <= dayHigh new /\ dayLow new <= dayLow old /\
             dayLow new <= dayHigh new)
          l (fst (tick random l p)).
Proof.
  apply tick_Forall2. intros s q.
  cbn [updateStock bind Math_random ret fst dayHigh dayLow].
  unfold JS.Math_max, JS.Math_min.
  set (x := Qmax 1 (price s + (random q - (1 # 2)) * 5)).
  pose proof (Q.le_max_l (dayHigh s) x). pose proof (Q.le_max_r (dayHigh s) x).
  pose proof (Q.le_min_l (dayLow s) x). pose proof (Q.le_min_r (dayLow s) x).
  repeat split; lra.
Qed.

(** X5: after a tick the stored price lies between the day-low and the
    day-high once these two are rounded to two decimals the way the price
    is ([Math.round(v * 100) / 100]): the gap that the unrounded extremes
    can leave is below the rounding step. *)
Theorem tick_rounded_bracket (l : list StockData) (p : nat) :
  Forall (fun new =>
            inject_Z (JS.Math_round (dayLow new * 100)) / 100 <= price new /\
            price new <= inject_Z (JS.Math_round (dayHigh new * 100)) / 100)
         (fst (tick random l p)).
Proof.
  apply (tick_Forall_pre (fun _ => True)); [|now apply Forall_forall].
  intros s q _.
  cbn [updateStock bind Math_random ret fst price dayHigh dayLow].
  unfold JS.Math_max, JS.Math_min.
  set (x := Qmax 1 (price s + (random q - (1 # 2)) * 5)).
  pose proof (Q.le_max_r (dayHigh s) x) as Hh.
  pose proof (Q.le_min_r (dayLow s) x) as Hl.
  assert (H1 : (JS.Math_round (Qmin (dayLow s) x * 100)
                <= JS.Math_round (x * 100))%Z) by (apply Math_round_mono; lra).
  assert (H2 : (JS.Math_round (x * 100)
                <= JS.Math_round (Qmax (dayHigh s) x * 100))%Z)
    by (apply Math_round_mono; lra).
  rewrite Zle_Qle in H1, H2. hundredths. split; lra.
Qed.

(** The stored price is a whole number of hundredths, whatever the input. *)
Lemma updateStock_hundredth (s : StockData) (q : nat) :
  hundredth (price (fst (updateStock random s q))).
Proof. eexists. cbn [updateStock bind Math_random ret fst price]. reflexivity. Qed.

Hypothesis random_range : unit_interval random.

(** From a price of whole hundredths that is at least 1, the callback moves
    the stored price by at most 2.50. *)
Lemma updateStock_step (s : StockData) (q : nat) :
  hundredth (price s) -> 1 <= price s ->
  -(5 # 2) <= price (fst (updateStock random s q)) - price s /\
  price (fst (updateStock random s q)) - price s <= 5 # 2.
Proof.
  intros (k & Hk) H1.
  cbn [updateStock bind Math_random ret fst price]. unfold JS.Math_max.
  destruct (random_range q) as [Hr0 Hr1].
  set (x := Qmax 1 (price s + (random q - (1 # 2)) * 5)).
  assert (Hx : price s - (5 # 2) <= x /\ x <= price s + (5 # 2)).
  { split.
    - pose proof (Q.le_max_r 1 (price s + (random q - (1 # 2)) * 5)).
      fold x in H. lra.
    - apply Q.max_lub; lra. }
  pose proof (Math_round_between (k - 250) (k + 250) (x * 100)) as A.
  rewrite inject_Z_minus, inject_Z_plus in A.
  change (inject_Z 250) with 250 in A.
  hundredths. destruct A as [A1 A2]; [lra | lra |]. split; lra.
Qed.

End MutatorMore.

(** ** More on the application *)

Lemma nth_error_set_nth_other {A} (l : list A) :
  forall i j v, i <> j -> nth_error (set_nth i v l) j = nth_error l j.
Proof.
  induction l as [|a l IH]; intros [|i] [|j] v H; cbn; try reflexivity.
  - contradiction.
  - apply IH. congruence.
Qed.

Lemma length_set_nth {A} (l : list A) :
  forall i v, List.length (set_nth i v l) = List.length l.
Proof.
  induction l as [|a l IH]; intros [|i] v; cbn; try reflexivity.
  now rewrite IH.
Qed.

Lemma tick_static (random : nat -> Q) (l : list StockData) :
  forall p, map static_fields (fst (tick random l p)) = map static_fields l.
Proof.
  induction l as [|s l IH]; intros p; [reflexivity|].
  rewrite tick_cons. cbn [fst map]. now rewrite IH.
Qed.

Section ApplicationMore.

Variable LIST_ITEM_COUNT : nat.
Variable random : nat -> Q.
Variable toLocaleString : Z -> string.
Variable exponentString : Binary64.float -> string.

Local Abbreviation step' := (step random exponentString).
Local Abbreviation run' := (run random exponentString).
Local Abbreviation init' := (initialState LIST_ITEM_COUNT random).

Lemma run_cons (e : event) (evs : list event) (st : AppState) :
  run' (e :: evs) st = run' evs (fst (step' st e)).
Proof. reflexivity. Qed.

Lemma step_stocks (st : AppState) (e : event) :
  stocks (fst (step' st e)) =
  match e with
  | Tick => fst (tick random (stocks st) (draws st))
  | _ => stocks st
  end.
Proof.
  destruct e as [|i|i].
  - now rewrite step_Tick.
  - apply step_click_stocks.
  - now rewrite (proj2 (step_click_stocks random exponentString st i)).
Qed.

Lemma step_draws (st : AppState) (e : event) :
  draws (fst (step' st e)) =
  match e with
  | Tick => (draws st + List.length (stocks st))%nat
  | _ => draws st
  end.
Proof.
  destruct e as [|i|i].
  - rewrite step_Tick. cbn [draws]. apply tick_draws.
  - cbn [step].
    now destruct (nth_error (stocks st) i), (nth_error (rows st) i).
  - now rewrite (proj2 (step_click_stocks random exponentString st i)).
Qed.

(** A property of records that the callback keeps holds along every run. *)
Lemma run_Forall_kept (P : StockData -> Prop) :
  (forall s q, P s -> P (fst (updateStock random s q))) ->
  forall evs st, Forall P (stocks st) -> Forall P (stocks (run' evs st)).
Proof.
  intros HP evs. induction evs as [|e evs IH]; intros st H; [exact H|].
  rewrite run_cons. apply IH. rewrite step_stocks.
  destruct e; try exact H. now apply (tick_Forall_pre random P P).
Qed.

Lemma initialState_fields :
  stocks init' = fst (generateMockData LIST_ITEM_COUNT random 0%nat) /\
  rows init' = repeat false LIST_ITEM_COUNT /\
  draws init' = (6 * LIST_ITEM_COUNT)%nat.
Proof.
  unfold initialState. rewrite generateMockData_run. cbn [stocks rows draws fst].
  now rewrite length_map, length_seq.
Qed.

(** X6: the identifier, symbol, company, sector, exchange, opening price,
    volume and market capitalisation of every record are, in every state
    the application reaches, the ones generated at start-up; in particular
    the identifiers stay 1, 2, ..., [LIST_ITEM_COUNT], pairwise distinct (the
    rows' React keys), and there is one local flag per record. *)
Theorem run_static_fields (evs : list event) :
  let st := run' evs init' in
  map static_fields (stocks st) = map static_fields (stocks init') /\
  map id (stocks st) = ids_upto LIST_ITEM_COUNT /\
  NoDup (map id (stocks st)) /\
  List.length (rows st) = List.length (stocks st).
Proof.
  cbv zeta.
  assert (Hrun : forall evs st,
             map static_fields (stocks (run' evs st))
             = map static_fields (stocks st) /\
             List.length (rows (run' evs st)) = List.length (rows st)).
  { clear evs. induction evs as [|e evs IH]; intros st; [now split|].
    rewrite run_cons. destruct (IH (fst (step' st e))) as [IH1 IH2].
    rewrite IH1, IH2, step_stocks. destruct e as [|i|i].
    - rewrite tick_static, step_Tick. now split.
    - split; [reflexivity|]. cbn [step].
      destruct (nth_error (stocks st) i), (nth_error (rows st) i);
        cbn [fst rows onWatchlistClick]; try reflexivity.
      apply length_set_nth.
    - split; [reflexivity|].
      now rewrite (proj2 (step_click_stocks random exponentString st i)). }
  destruct (Hrun evs init') as [Hs Hr].
  destruct initialState_fields as (Hi & Hrows & _).
  assert (Hids : map id (stocks (run' evs init')) = ids_upto LIST_ITEM_COUNT).
  { transitivity (map (fun t => fst (fst (fst (fst (fst (fst (fst t)))))))
                      (map static_fields (stocks (run' evs init')))).
    - rewrite map_map. reflexivity.
    - rewrite Hs, map_map, Hi, generateMockData_spec, map_map. reflexivity. }
  repeat split.
  - exact Hs.
  - exact Hids.
  - rewrite Hids. apply Injective_map_NoDup; [|apply seq_NoDup].
    intros a b H. lia.
  - rewrite Hr, Hrows, repeat_length.
    rewrite <- (length_map static_fields (stocks (run' evs init'))), Hs.
    now rewrite length_map, Hi, generateMockData_length.
Qed.

(** X7: a tick calls [Math.random()] once per record: after the six draws
    per record of the generator, a run has made
    [6 * LIST_ITEM_COUNT + LIST_ITEM_COUNT * (number of ticks)] draws, and
    clicks make none. *)
Theorem run_draws (evs : list event) :
  draws (run' evs init') =
  (6 * LIST_ITEM_COUNT + LIST_ITEM_COUNT * ticks evs)%nat.
Proof.
  assert (Hrun : forall evs st,
             List.length (stocks (run' evs st)) = List.length (stocks st) /\
             draws (run' evs st) =
             (draws st + List.length (stocks st) * ticks evs)%nat).
  { clear evs. induction evs as [|e evs IH]; intros st.
    - cbn. split; [reflexivity | lia].
    - rewrite run_cons. destruct (IH (fst (step' st e))) as [IH1 IH2].
      rewrite IH1, IH2, step_stocks, step_draws.
      destruct e; cbn [ticks filter List.length];
        rewrite ?tick_length; fold (ticks evs); split; lia. }
  destruct (Hrun evs init') as [_ ->].
  destruct initialState_fields as (Hi & _ & ->).
  now rewrite Hi, generateMockData_length.
Qed.

End ApplicationMore.

Section ApplicationBounds.

Variable LIST_ITEM_COUNT : nat.
Variable random : nat -> Q.
Variable toLocaleString : Z -> string.
Variable exponentString : Binary64.float -> string.
Hypothesis random_range : unit_interval random.

Local Abbreviation step'' := (step random exponentString).
Local Abbreviation run'' := (run random exponentString).
Local Abbreviation init'' := (initialState LIST_ITEM_COUNT random).

Lemma updateStock_priced (b : Q) (s : StockData) (q : nat) :
  priced b s -> priced (b + (5 # 2)) (fst (updateStock random s q)).
Proof.
  intros (Hh & H1 & Hb).
  pose proof (updateStock_step random random_range s q Hh H1) as [_ Hs].
  repeat split.
  - apply updateStock_hundredth.
  - apply updateStock_price_floor.
  - lra.
Qed.

Lemma priced_weaken (b b' : Q) (l : list StockData) :
  b <= b' -> Forall (priced b) l -> Forall (priced b') l.
Proof.
  intros Hb. apply Forall_impl. intros s (Hh & H1 & Hs).
  repeat split; trivial. lra.
Qed.

Lemma run_priced (evs : list event) :
  forall st b,
    Forall (priced b) (stocks st) ->
    Forall (priced (b + (5 # 2) * inject_Z (Z.of_nat (ticks evs))))
           (stocks (run'' evs st)).
Proof.
  induction evs as [|e evs IH]; intros st b H.
  - change (ticks []) with 0%nat. change (inject_Z (Z.of_nat 0)) with 0.
    eapply priced_weaken; [|exact H]. lra.
  - rewrite run_cons. destruct e as [|i|i].
    + assert (Ht : ticks (Tick :: evs) = S (ticks evs)) by reflexivity.
      rewrite Ht, Nat2Z.inj_succ, <- Z.add_1_r, inject_Z_plus.
      change (inject_Z 1) with 1.
      eapply priced_weaken; [|apply (IH _ (b + (5 # 2)))].
      * lra.
      * rewrite step_stocks.
        apply (tick_Forall_pre random (priced b)); [|exact H].
        intros s q. apply updateStock_priced.
    + change (ticks (ClickWatchlist i :: evs)) with (ticks evs).
      apply IH. now rewrite step_stocks.
    + change (ticks (ClickTrade i :: evs)) with (ticks evs).
      apply IH. now rewrite step_stocks.
Qed.

Lemma initialState_priced : Forall (priced 510) (stocks init'').
Proof.
  destruct (initialState_fields LIST_ITEM_COUNT random) as (-> & _).
  rewrite generateMockData_spec, Forall_map, Forall_forall. intros k _.
  destruct (newStock_ok random random_range k (0 + 6 * k)) as ((Hlo & Hhi) & _).
  repeat split; trivial; [|lra].
  eexists. rewrite newStock_price. reflexivity.
Qed.

(** One update moves a price of whole hundredths, at least 1, by at most
    250 hundredths. *)
Lemma updateStock_cents_step (s : StockData) (q : nat) :
  hundredth (price s) -> 1 <= price s ->
  (-250 <= cents (price (fst (updateStock random s q))) - cents (price s)
   <= 250)%Z.
Proof.
  intros Hh H1.
  destruct (updateStock_step random random_range s q Hh H1) as [Hlo Hhi].
  destruct Hh as (k & Hk).
  destruct (updateStock_hundredth random s q) as (k' & Hk').
  rewrite (cents_hundredth k _ Hk), (cents_hundredth k' _ Hk').
  rewrite Hk, Hk' in Hlo, Hhi.
  split; rewrite Zle_Qle, inject_Z_minus;
    [change (inject_Z (-250)) with (-(250)) |
     change (inject_Z 250) with 250];
    hundredths; lra.
Qed.

(** X9: in a state the application has reached, one more tick moves every
    price, counted in whole hundredths, by at most 250 hundredths (2.50),
    up or down. *)
Theorem reachable_tick_step (evs : list event) :
  let st := run'' evs init'' in
  Forall2 (fun old new =>
             (-250 <= cents (price new) - cents (price old) <= 250)%Z)
          (stocks st) (stocks (fst (step'' st Tick))).
Proof.
  cbv zeta. rewrite step_stocks.
  apply (tick_Forall2_pre random
           (priced (510 + (5 # 2) * inject_Z (Z.of_nat (ticks evs))))).
  - intros s q (Hh & H1 & _). now apply updateStock_cents_step.
  - apply run_priced, initialState_priced.
Qed.

(** X10: prices drift slowly: after a run with [n] ticks no price exceeds
    510 + 2.5 n. *)
Theorem run_price_drift (evs : list event) :
  Forall (fun s => price s <= 510 + (5 # 2) * inject_Z (Z.of_nat (ticks evs)))
         (stocks (run'' evs init'')).
Proof.
  eapply Forall_impl; [|apply run_priced, initialState_priced].
  intros s (_ & _ & H). exact H.
Qed.

(** X11: with the generated volumes and market capitalisations, which the
    mutator never changes, the volume of every row is always printed with
    the suffix K or M and the market capitalisation with M or B: the plain
    and the locale-dependent branches of the two formatters are never
    taken. *)
Theorem reachable_formats (evs : list event) :
  Forall (fun s =>
            (exists d, formatVolume exponentString (volume s) = append d "K" \/
                       formatVolume exponentString (volume s) = append d "M") /\
            (exists d,
                formatMarketCap toLocaleString exponentString (marketCap s)
                = append "$" (append d "M") \/
                formatMarketCap toLocaleString exponentString (marketCap s)
                = append "$" (append d "B")))
         (stocks (run'' evs init'')).
Proof.
  eapply Forall_impl;
    [|apply (run_Forall_kept random exponentString
               (fun s => (100000 <= volume s)%Z /\ (10000000 <= marketCap s)%Z))].
  - intros s (Hv & Hc). unfold formatVolume, formatMarketCap. split.
    + destruct (Z.leb_spec 1000000 (volume s)); [eexists; right; reflexivity|].
      destruct (Z.leb_spec 1000 (volume s)); [eexists; left; reflexivity | lia].
    + destruct (Z.leb_spec 1000000000 (marketCap s));
        [eexists; right; reflexivity|].
      destruct (Z.leb_spec 1000000 (marketCap s));
        [eexists; left; reflexivity | lia].
  - intros s q H. exact H.
  - destruct (initialState_fields LIST_ITEM_COUNT random) as (-> & _).
    rewrite generateMockData_spec, Forall_map, Forall_forall. intros k _.
    destruct (newStock_ok random random_range k (0 + 6 * k))
      as (_ & _ & Hv & Hc & _).
    split; lia.
Qed.

End ApplicationBounds.

(** ** The rows' local flags *)

Section Rows.

Variable LIST_ITEM_COUNT : nat.
Variable random : nat -> Q.
Variable exponentString : Binary64.float -> string.

Local Abbreviation step_ := (step random exponentString).
Local Abbreviation run_ := (run random exponentString).
Local Abbreviation init_ := (initialState LIST_ITEM_COUNT random).

(** The rows after a click on the watchlist button of row [i]. *)
Lemma step_click_rows (st : AppState) (i : nat) :
  rows (fst (step_ st (ClickWatchlist i))) =
  match nth_error (stocks st) i, nth_error (rows st) i with
  | Some _, Some w => set_nth i (negb w) (rows st)
  | _, _ => rows st
  end.
Proof.
  cbn [step]. now destruct (nth_error (stocks st) i), (nth_error (rows st) i).
Qed.

(** X12: a click on the watchlist button of row [i] negates the flag of
    row [i] and of no other row, and does nothing at all when there is no
    record at index [i]; it never touches the records or the random
    source. *)
Theorem watchlist_click_local (st : AppState) (i j : nat) :
  let st' := fst (step_ st (ClickWatchlist i)) in
  nth_error (rows st') j =
  (if (j =? i)%nat && (i <? List.length (stocks st))%nat
   then option_map negb (nth_error (rows st) j)
   else nth_error (rows st) j) /\
  stocks st' = stocks st /\ draws st' = draws st.
Proof.
  cbv zeta. rewrite step_click_rows, step_stocks, step_draws.
  split; [|now split].
  destruct (nth_error (stocks st) i) as [props|] eqn:Es.
  - assert (Hi : (i <? List.length (stocks st))%nat = true).
    { apply Nat.ltb_lt, nth_error_Some. congruence. }
    rewrite Hi, andb_true_r.
    destruct (Nat.eqb_spec j i) as [->|Hji].
    + destruct (nth_error (rows st) i) as [w|] eqn:Er; [|now rewrite Er].
      now rewrite (nth_error_set_nth _ _ _ _ Er).
    + destruct (nth_error (rows st) i) as [w|]; [|reflexivity].
      apply nth_error_set_nth_other. congruence.
  - assert (Hi : (i <? List.length (stocks st))%nat = false).
    { apply Nat.ltb_ge, nth_error_None, Es. }
    now rewrite Hi, andb_false_r.
Qed.

(** X13: the local flags are independent of the data feed: a tick and a
    watchlist click commute.  Both orders end in the same state, and the
    click logs the same console message either way (it names the symbol,
    which a tick does not change). *)
Theorem tick_click_commute (st : AppState) (i : nat) :
  fst (step_ (fst (step_ st Tick)) (ClickWatchlist i)) =
  fst (step_ (fst (step_ st (ClickWatchlist i))) Tick) /\
  snd (step_ (fst (step_ st Tick)) (ClickWatchlist i)) =
  snd (step_ st (ClickWatchlist i)).
Proof.
  rewrite !step_Tick. cbn [step stocks rows draws].
  rewrite tick_nth_error.
  destruct (nth_error (stocks st) i) as [props|] eqn:Es;
    destruct (nth_error (rows st) i) as [w|] eqn:Er;
    cbn [option_map fst snd onWatchlistClick stocks rows draws];
    split; try reflexivity;
    now destruct (tick random (stocks st) (draws st)).
Qed.

Lemma watchlist_click_rows_at (st : AppState) (i j : nat) (b : bool) :
  (i < List.length (stocks st))%nat ->
  nth_error (rows st) i = Some b ->
  (i < List.length (stocks (fst (step_ st (ClickWatchlist j)))))%nat /\
  nth_error (rows (fst (step_ st (ClickWatchlist j)))) i =
  Some (if (j =? i)%nat then negb b else b).
Proof.
  intros Hi Hb. rewrite step_stocks, step_click_rows. split; [exact Hi|].
  destruct (Nat.eqb_spec j i) as [->|Hji].
  - destruct (nth_error (stocks st) i) eqn:Es.
    + rewrite Hb. now rewrite (nth_error_set_nth _ _ _ _ Hb).
    + apply nth_error_None in Es. lia.
  - destruct (nth_error (stocks st) j), (nth_error (rows st) j); trivial.
    now rewrite nth_error_set_nth_other.
Qed.

(** The flag of a row along a run. *)
Lemma run_row (i : nat) (evs : list event) :
  forall st b,
    (i < List.length (stocks st))%nat ->
    nth_error (rows st) i = Some b ->
    nth_error (rows (run_ evs st)) i =
    Some (xorb b (Nat.odd (watchlist_clicks i evs))).
Proof.
  induction evs as [|e evs IH]; intros st b Hi Hb.
  - cbn. now rewrite xorb_false_r.
  - rewrite run_cons. destruct e as [|j|j].
    + change (watchlist_clicks i (Tick :: evs)) with (watchlist_clicks i evs).
      apply IH.
      * now rewrite step_stocks, tick_length.
      * now rewrite step_Tick.
    + destruct (watchlist_click_rows_at st i j b Hi Hb) as [Hlen Hrow].
      destruct (Nat.eqb_spec j i) as [->|Hji].
      * assert (Hc : watchlist_clicks i (ClickWatchlist i :: evs)
                     = S (watchlist_clicks i evs)).
        { unfold watchlist_clicks. cbn [filter]. now rewrite Nat.eqb_refl. }
        rewrite Hc, Nat.odd_succ, <- Nat.negb_odd.
        rewrite (IH _ (negb b)); trivial.
        now destruct b, (Nat.odd (watchlist_clicks i evs)).
      * assert (Hc : watchlist_clicks i (ClickWatchlist j :: evs)
                     = watchlist_clicks i evs).
        { unfold watchlist_clicks. cbn [filter].
          now destruct (Nat.eqb_spec j i). }
        rewrite Hc. now apply IH.
    + change (watchlist_clicks i (ClickTrade j :: evs))
        with (watchlist_clicks i evs).
      rewrite (proj2 (step_click_stocks random exponentString st j)).
      now apply IH.
Qed.

(** X14: a row's flag is never reset: after any run, the flag of a row is
    set exactly when its watchlist button was clicked an odd number of
    times, whatever ticks, trades and clicks on other rows came in
    between. *)
Theorem watchlist_flag_parity (evs : list event) (i : nat) :
  (i < LIST_ITEM_COUNT)%nat ->
  nth_error (rows (run_ evs init_)) i =
  Some (Nat.odd (watchlist_clicks i evs)).
Proof.
  intros Hi.
  destruct (initialState_fields LIST_ITEM_COUNT random) as (Hs & Hr & _).
  rewrite (run_row i evs init_ false).
  - reflexivity.
  - now rewrite Hs, generateMockData_length.
  - rewrite Hr. now apply nth_error_repeat.
Qed.

End Rows.

(** ** The frame sampler and the gauge's colours *)

(** X15: the status text and the two colours of the gauge always belong to
    the same tier: red with "Poor", yellow with "Reduced", green with
    "Optimal". *)
Theorem fps_colours_match_status (v : Z) :
  (getStatusText v = tier_text Poor /\
   getBackgroundColor v = "#ef4444"%string /\
   getPathColor v = "#dc2626"%string) \/
  (getStatusText v = tier_text Reduced /\
   getBackgroundColor v = "#eab308"%string /\
   getPathColor v = "#ca8a04"%string) \/
  (getStatusText v = tier_text Optimal /\
   getBackgroundColor v = "#22c55e"%string /\
   getPathColor v = "#16a34a"%string).
Proof.
  unfold getStatusText, getBackgroundColor, getPathColor, tier_text.
  destruct (Z.leb_spec 50 v), (Z.leb_spec 20 v),
    (Z.ltb_spec v 20), (Z.ltb_spec v 50); try lia; auto 10.
Qed.

Lemma measureFPS_bounds (st : FpsState) (now : Q) (n : Z) :
  (0 <= fps st <= Z.max 60 n)%Z -> (0 <= frameCount st <= n)%Z ->
  (0 <= fps (measureFPS st now) <= Z.max 60 (n + 1))%Z /\
  (0 <= frameCount (measureFPS st now) <= n + 1)%Z.
Proof.
  intros Hf Hc. unfold measureFPS.
  destruct (Qle_bool 1000 (now - lastTime st)) eqn:E; cbn [fps frameCount].
  - apply Qle_bool_iff in E.
    set (e := now - lastTime st) in *.
    set (c := (frameCount st + 1)%Z).
    assert (Hc' : 1 <= inject_Z c /\ inject_Z c <= inject_Z (n + 1)).
    { change 1 with (inject_Z 1). rewrite <- !Zle_Qle. unfold c. lia. }
    destruct (Math_round_between 0 c (inject_Z c * 1000 / e)) as [A B].
    + change (inject_Z 0) with 0. apply Qle_shift_div_l; lra.
    + apply Qle_shift_div_r; [lra|]. apply Qmult_le_l; lra.
    + rewrite <- Zle_Qle in A, B.
      assert (Hcn : (c <= n + 1)%Z) by (unfold c; lia). lia.
  - lia.
Qed.

(** X16: whatever the frame times, the sampled value is never negative and
    never exceeds the number of frames seen so far (or the initial 60), and
    the frame counter stays between 0 and that number. *)
Theorem sampleFrames_bounds (t : Q) (times : list Q) :
  let st := sampleFrames (fpsMounted t) times in
  let n := Z.of_nat (List.length times) in
  (0 <= fps st <= Z.max 60 n)%Z /\ (0 <= frameCount st <= n)%Z.
Proof.
  cbv zeta.
  assert (H : forall times st n,
             (0 <= fps st <= Z.max 60 n)%Z /\ (0 <= frameCount st <= n)%Z ->
             (0 <= fps (sampleFrames st times)
              <= Z.max 60 (n + Z.of_nat (List.length times)))%Z /\
             (0 <= frameCount (sampleFrames st times)
              <= n + Z.of_nat (List.length times))%Z).
  { clear. induction times as [|now times IH]; intros st n [Hf Hc].
    - cbn [sampleFrames fold_left List.length]. rewrite Z.add_0_r. now split.
    - change (sampleFrames st (now :: times))
        with (sampleFrames (measureFPS st now) times).
      cbn [List.length]. rewrite Nat2Z.inj_succ, <- Z.add_1_l, Z.add_assoc.
      apply IH. now apply measureFPS_bounds. }
  apply (H times (fpsMounted t) 0%Z). cbn. lia.
Qed.





(** ** The price-change line when the price has not moved *)

(** X18: a price equal to the opening price counts as a rise: for every
    finite non-zero price the line reads "▲ $0.00 (0.00%)"; more generally
    [isPositive] of a price against itself is true exactly when the price
    is finite (an infinite or NaN price gives a NaN change, hence the
    downward branch). *)
Theorem unchanged_price_line (exponentString : Binary64.float -> string)
  (x : Binary64.float) :
  Binary64.isPositive x x = Binary64.isFinite x /\
  match x with
  | S754_finite _ _ _ =>
      priceChangeText exponentString x x = "▲ $0.00 (0.00%)"%string
  | _ => True
  end.
Proof.
  assert (Hsub : forall s m e,
             Binary64.priceChange (S754_finite s m e) (S754_finite s m e)
             = S754_zero false).
  { intros s m e. unfold Binary64.priceChange, Binary64.sub. cbn [SFsub].
    now rewrite Z.sub_diag. }
  destruct x as [s|s| |s m e].
  - split; [now destruct s | exact I].
  - split; [now destruct s | exact I].
  - split; [reflexivity | exact I].
  - unfold priceChangeText, Binary64.isPositive, Binary64.changePercent.
    rewrite Hsub. split; [reflexivity|]. now destruct s.
Qed.

(** ** A tick that changes nothing *)

(** X19: when the draw is exactly 1/2 the change is 0, and a record whose
    price is a whole number of hundredths, at least 1 and between its
    day-low and day-high is rebuilt with the same values in every field. *)
Theorem zero_change_tick (random : nat -> Q) (s : StockData) (q : nat) :
  random q == 1 # 2 ->
  hundredth (price s) -> 1 <= price s ->
  dayLow s <= price s -> price s <= dayHigh s ->
  let new := fst (updateStock random s q) in
  static_fields new = static_fields s /\
  price new == price s /\ dayHigh new == dayHigh s /\ dayLow new == dayLow s.
Proof.
  intros Hr (k & Hk) H1 Hlo Hhi. cbv zeta.
  cbn [updateStock bind Math_random ret fst price dayHigh dayLow].
  unfold JS.Math_max, JS.Math_min.
  set (x := Qmax 1 (price s + (random q - (1 # 2)) * 5)).
  assert (Hx : x == price s).
  { unfold x. rewrite Q.max_r; lra. }
  assert (Hround : JS.Math_round (x * 100) = k).
  { unfold JS.Math_round.
    rewrite (Qfloor_comp _ (inject_Z k + (1 # 2))) by (hundredths; lra).
    apply Z.le_antisymm.
    - apply (Math_round_le k (inject_Z k)). lra.
    - apply (Math_round_ge k (inject_Z k)). lra. }
  rewrite Hround. split; [reflexivity|]. split; [lra|].
  split; [rewrite Q.max_l; lra | rewrite Q.min_l; lra].
Qed.

(** ** Concrete instances of the hypotheses *)

Lemma zero_change_tick_witness :
  let s := {| id := 1; symbol := "TEC0"; company := "TechCorp Inc.";
              sector := "Technology"; exchange := "NYSE";
              price := inject_Z 1234 / 100; openPrice := 12;
              dayHigh := 15; dayLow := 3 # 2;
              volume := 5814285; marketCap := 724285714 |} in
  let new := fst (updateStock (fun _ => 1 # 2) s 0%nat) in
  static_fields new = static_fields s /\
  price new == price s /\ dayHigh new == dayHigh s /\ dayLow new == dayLow s.
Proof.
  cbv zeta. apply (zero_change_tick (fun _ => 1 # 2)).
  - reflexivity.
  - exists 1234%Z. reflexivity.
  - discriminate.
  - discriminate.
  - discriminate.
Defined.

Lemma generateMockData_labels_witness :
  let l := fst (generateMockData 12 draws_alternating 0%nat) in
  let s := fst (newStock draws_alternating 0 0%nat) in
  let t := fst (newStock draws_alternating 10 60%nat) in
  In s l /\ In t l /\
  In (sector s, exchange s) (combine sectors exchanges) /\
  (company s = company t -> sector s = sector t /\ exchange s = exchange t).
Proof.
  cbv zeta.
  assert (Hs : In (fst (newStock draws_alternating 0 0%nat))
                  (fst (generateMockData 12 draws_alternating 0%nat))).
  { rewrite generateMockData_spec.
    apply (in_map (fun k => fst (newStock draws_alternating k (0 + 6 * k)%nat))
                  (seq 0 12) 0%nat), in_seq. lia. }
  assert (Ht : In (fst (newStock draws_alternating 10 60%nat))
                  (fst (generateMockData 12 draws_alternating 0%nat))).
  { rewrite generateMockData_spec.
    apply (in_map (fun k => fst (newStock draws_alternating k (0 + 6 * k)%nat))
                  (seq 0 12) 10%nat), in_seq. lia. }
  split; [exact Hs | split; [exact Ht|]].
  exact (generateMockData_labels 12 draws_alternating 0 _ _ Hs Ht).
Defined.


Lemma reachable_tick_step_witness :
  unit_interval draws_alternating /\
  let st := run draws_alternating no_exponent [Tick; ClickWatchlist 1; Tick]
              (initialState 3 draws_alternating) in
  Forall2 (fun old new =>
             (-250 <= cents (price new) - cents (price old) <= 250)%Z)
          (stocks st) (stocks (fst (step draws_alternating no_exponent st Tick))).
Proof.
  split.
  - intros n. unfold draws_alternating.
    destruct (Nat.even n); split; reflexivity || discriminate.
  - apply (reachable_tick_step 3 draws_alternating no_exponent).
    intros n. unfold draws_alternating.
    destruct (Nat.even n); split; reflexivity || discriminate.
Defined.

Lemma run_price_drift_witness :
  unit_interval draws_alternating /\
  Forall (fun s => price s <= 510 + (5 # 2) * inject_Z (Z.of_nat 2))
    (stocks (run draws_alternating no_exponent [Tick; ClickWatchlist 1; Tick]
               (initialState 3 draws_alternating))).
Proof.
  split.
  - intros n. unfold draws_alternating.
    destruct (Nat.even n); split; reflexivity || discriminate.
  - apply (run_price_drift 3 draws_alternating no_exponent
             (fun n => ltac:(unfold draws_alternating;
                             destruct (Nat.even n); split;
                             reflexivity || discriminate))
             [Tick; ClickWatchlist 1; Tick]).
Defined.

Lemma reachable_formats_witness :
  unit_interval draws_alternating /\
  Forall (fun s =>
            (exists d, formatVolume no_exponent (volume s) = append d "K" \/
                       formatVolume no_exponent (volume s) = append d "M") /\
            (exists d,
                formatMarketCap JS.string_of_Z no_exponent (marketCap s)
                = append "$" (append d "M") \/
                formatMarketCap JS.string_of_Z no_exponent (marketCap s)
                = append "$" (append d "B")))
    (stocks (run draws_alternating no_exponent [Tick; ClickTrade 0]
               (initialState 3 draws_alternating))).
Proof.
  split.
  - intros n. unfold draws_alternating.
    destruct (Nat.even n); split; reflexivity || discriminate.
  - apply (reachable_formats 3 draws_alternating JS.string_of_Z no_exponent).
    intros n. unfold draws_alternating.
    destruct (Nat.even n); split; reflexivity || discriminate.
Defined.

Lemma watchlist_flag_parity_witness :
  (1 < 3)%nat /\
  nth_error
    (rows (run draws_alternating no_exponent
             [ClickWatchlist 1; Tick; ClickWatchlist 0; ClickWatchlist 1;
              ClickTrade 1; ClickWatchlist 1]
             (initialState 3 draws_alternating))) 1
  = Some true.
Proof.
  split; [lia|].
  exact (watchlist_flag_parity 3 draws_alternating no_exponent
           [ClickWatchlist 1; Tick; ClickWatchlist 0; ClickWatchlist 1;
            ClickTrade 1; ClickWatchlist 1] 1 ltac:(lia)).
Defined.
